(** * HSTB.drivers.caris_finder: locating CARIS executables through the registry

    A shallow embedding of [src/HSTB/drivers/caris_finder.py] and the
    properties of its resolver [caris_command_finder] and of the wrappers
    built on it.

    Python values are embedded as the inductive [pyval]; raising is an
    explicit result ([Raise]); the Windows registry and the filesystem are
    the fields of a [Host] record, which every operation receives. *)

From Stdlib Require Import ZArith List String Ascii Bool QArith Qabs.
From Stdlib Require Import Floats.
Import ListNotations.

Local Close Scope Q_scope.
Local Open Scope string_scope.
Local Open Scope list_scope.

(** ** Python values and exceptions *)

(** Python's [float] is IEEE binary64; [spec_float] is its specification-level
    representation in the Standard Library ([SpecFloat]). *)
Definition pyfloat := spec_float.

#[warnings="-register-all"] Inductive pyval : Type :=
| PStr (s : string)
| PFloat (f : pyfloat)
| PList (l : list pyval)
| PTuple (l : list pyval).

(** The exceptions that the module can raise.  [WindowsError] is Python 3's
    alias of [OSError]; its payload is the Windows error code. *)
Inductive exn : Type :=
| WindowsError (winerror : Z)
| ValueError (msg : string)
| TypeError
| IndexError
| Exception (msg : string).

Inductive res (A : Type) : Type :=
| Ok (a : A)
| Raise (e : exn).
Arguments Ok {A} a.
Arguments Raise {A} e.

Definition bind {A B : Type} (m : res A) (k : A -> res B) : res B :=
  match m with
  | Ok a => k a
  | Raise e => Raise e
  end.

Notation "x <- m ;; k" := (bind m (fun x => k))
  (at level 61, m at next level, right associativity).

(** Truth value testing: an empty string, a zero float, an empty list and an
    empty tuple are false. *)
Definition truthy (v : pyval) : bool :=
  match v with
  | PStr "" => false
  | PStr _ => true
  | PFloat (S754_zero _) => false
  | PFloat _ => true
  | PList [] => false
  | PList _ => true
  | PTuple [] => false
  | PTuple _ => true
  end.

(** [v[0]] *)
Definition getitem0 (v : pyval) : res pyval :=
  match v with
  | PList (x :: _) | PTuple (x :: _) => Ok x
  | PList [] | PTuple [] => Raise IndexError
  | PStr (String c _) => Ok (PStr (String c ""))
  | PStr "" => Raise IndexError
  | PFloat _ => Raise TypeError
  end.

(** [a, b = v] *)
Definition unpack2 (v : pyval) : res (pyval * pyval) :=
  match v with
  | PList [a; b] | PTuple [a; b] => Ok (a, b)
  | PStr (String a (String b "")) => Ok (PStr (String a ""), PStr (String b ""))
  | PFloat _ => Raise TypeError
  | _ => Raise (ValueError "unpack")
  end.

(** ** [repr(str)]

    Strings are sequences of code points below 256, one [ascii] each. *)
Module PyStr.

Definition backslash : ascii := "\"%char.
Definition squote : ascii := "'"%char.
Definition dquote : ascii := "034"%char.

Definition hex_digit (n : nat) : ascii :=
  nth n (list_ascii_of_string "0123456789abcdef") "0"%char.

(** Code points that [str.isprintable] rejects: the controls, DEL, the C1
    controls, the no-break space and the soft hyphen. *)
Definition is_printable (c : ascii) : bool :=
  let n := nat_of_ascii c in
  negb ((n <? 32)%nat || ((127 <=? n)%nat && (n <=? 160)%nat)
        || (n =? 173)%nat).

Definition escape (quote c : ascii) : string :=
  let n := nat_of_ascii c in
  if Ascii.eqb c quote || Ascii.eqb c backslash then
    String backslash (String c "")
  else if (n =? 9)%nat then "\t"
  else if (n =? 10)%nat then "\n"
  else if (n =? 13)%nat then "\r"
  else if is_printable c then String c ""
  else String backslash
         (String "x" (String (hex_digit (n / 16))
                        (String (hex_digit (n mod 16)) ""))).

Fixpoint has (c : ascii) (s : string) : bool :=
  match s with
  | EmptyString => false
  | String d r => Ascii.eqb c d || has c r
  end.

Fixpoint escape_all (quote : ascii) (s : string) : string :=
  match s with
  | EmptyString => EmptyString
  | String c r => (escape quote c ++ escape_all quote r)%string
  end.

(** Single quotes, unless the string holds a single quote and no double
    quote. *)
Definition repr (s : string) : string :=
  let quote := if has squote s && negb (has dquote s) then dquote
               else squote in
  String quote (escape_all quote s ++ String quote "").

End PyStr.

(** ** [float(str)]

    The builtin follows the grammar of the language reference: single
    underscores may separate digits, surrounding whitespace is stripped, then
    an optional sign is followed by [inf], [infinity], [nan] (in any case) or
    by a decimal number with an optional exponent.  The decimal value is
    rounded to the nearest binary64 number, ties to even. *)
Module PyFloat.

Definition is_digit (c : ascii) : bool :=
  let n := nat_of_ascii c in (48 <=? n)%nat && (n <=? 57)%nat.

Definition digit_val (c : ascii) : Z := Z.of_nat (nat_of_ascii c) - 48.

(** The whitespace that [float] strips: the ASCII whitespace of the C
    library, and the two spaces above 127 (next line, no-break space), which
    the conversion turns into ASCII spaces first. *)
Definition is_space (c : ascii) : bool :=
  let n := nat_of_ascii c in
  ((9 <=? n)%nat && (n <=? 13)%nat) || (n =? 32)%nat
  || (n =? 133)%nat || (n =? 160)%nat.

Definition lower (c : ascii) : ascii :=
  let n := nat_of_ascii c in
  if ((65 <=? n)%nat && (n <=? 90)%nat)%bool then ascii_of_nat (n + 32) else c.

Fixpoint lstrip (l : list ascii) : list ascii :=
  match l with
  | c :: r => if is_space c then lstrip r else l
  | [] => []
  end.

Definition strip (l : list ascii) : list ascii :=
  rev (lstrip (rev (lstrip l))).

(** Underscores are allowed only between two digits; they are removed. *)
Fixpoint drop_underscores (prev : option ascii) (l : list ascii)
  : option (list ascii) :=
  match l with
  | [] =>
      match prev with
      | Some "_"%char => None
      | _ => Some []
      end
  | c :: r =>
      if Ascii.eqb c "_" then
        match prev with
        | Some p => if is_digit p then drop_underscores (Some c) r else None
        | None => None
        end
      else
        match prev with
        | Some "_"%char =>
            if is_digit c then option_map (cons c) (drop_underscores (Some c) r)
            else None
        | _ => option_map (cons c) (drop_underscores (Some c) r)
        end
  end.

(** The longest prefix of digits, as (digits read, number of digits, rest). *)
Fixpoint digits (acc : Z) (n : Z) (l : list ascii) : Z * Z * list ascii :=
  match l with
  | c :: r => if is_digit c then digits (10 * acc + digit_val c) (n + 1) r
              else (acc, n, l)
  | [] => (acc, n, l)
  end.

Definition sign (l : list ascii) : bool * list ascii :=
  match l with
  | "-"%char :: r => (true, r)
  | "+"%char :: r => (false, r)
  | _ => (false, l)
  end.

(** [m * 10^e] rounded to binary64. *)
Definition round_decimal (s : bool) (m e : Z) : pyfloat :=
  match m with
  | Zpos p =>
      if (0 <=? e)%Z then binary_round prec emax s (Z.to_pos (m * 10 ^ e)) 0
      else
        let '(q, eq, l) :=
          SFdiv_core_binary prec emax m 0 (10 ^ (- e)) 0 in
        binary_round_aux prec emax s q eq l
  | _ => S754_zero s
  end.

(** An optional exponent part; an [e] that is not followed by digits is not
    part of the number and is left in the rest. *)
Definition exponent (l : list ascii) : Z * list ascii :=
  match l with
  | c :: r =>
      if Ascii.eqb (lower c) "e" then
        let '(neg, r1) := sign r in
        let '(v, n, r2) := digits 0 0 r1 in
        if (n =? 0)%Z then (0%Z, l) else ((if neg then - v else v)%Z, r2)
      else (0%Z, l)
  | [] => (0%Z, l)
  end.

Definition number (s : bool) (l : list ascii) : option pyfloat :=
  let '(ip, ni, r1) := digits 0 0 l in
  let '(m, nf, r2) :=
    match r1 with
    | "."%char :: r => let '(m, nf, r2) := digits ip 0 r in (m, nf, r2)
    | _ => (ip, 0%Z, r1)
    end in
  if (ni + nf =? 0)%Z then None
  else
    let '(e, r3) := exponent r2 in
    match r3 with
    | [] => Some (round_decimal s m (e - nf))
    | _ => None
    end.

Definition parse (str : string) : option pyfloat :=
  match drop_underscores None (list_ascii_of_string str) with
  | None => None
  | Some l =>
      let '(s, r) := sign (strip l) in
      let w := string_of_list_ascii (map lower r) in
      if String.eqb w "inf" || String.eqb w "infinity"
      then Some (S754_infinity s)
      else if String.eqb w "nan" then Some S754_nan
      else number s r
  end.

End PyFloat.

(** [float(s)] for a string [s]: the parsed number, or [ValueError] with
    [repr(s)] in its message. *)
Definition float (s : string) : res pyfloat :=
  match PyFloat.parse s with
  | Some f => Ok f
  | None =>
      Raise (ValueError
               ("could not convert string to float: " ++ PyStr.repr s))
  end.

(** ** The host: registry and filesystem

    [winreg] calls either succeed or raise [WindowsError]; nothing else can
    come out of them. *)
Inductive winreg_result (A : Type) : Type :=
| Success (a : A)
| Failure (winerror : Z).
Arguments Success {A} a.
Arguments Failure {A} winerror.

Definition winreg {A : Type} (r : winreg_result A) : res A :=
  match r with
  | Success a => Ok a
  | Failure c => Raise (WindowsError c)
  end.

Record Host : Type := {
  (** registry key handles *)
  HKEY : Type;
  (** [ConnectRegistry(None, HKEY_LOCAL_MACHINE)] *)
  ConnectRegistry : winreg_result HKEY;
  (** [OpenKey(key, sub_key)] *)
  OpenKey : HKEY -> string -> winreg_result HKEY;
  (** [QueryValueEx(key, value_name)[0]]; [install_dir] is a string value *)
  QueryValueEx : HKEY -> string -> winreg_result string;
  (** [os.path.join(a, b, c)] *)
  os_path_join : string -> string -> string -> string;
  (** the files present on disk *)
  on_disk : string -> bool;
  (** [str(v)] for a value that is not a string (float and container repr) *)
  str_other : pyval -> string
}.

(** [os.path.exists]: [os.stat] fails on the empty path, so the answer is
    [False] there; otherwise it is what the disk says. *)
Definition os_path_exists (h : Host) (p : string) : bool :=
  match p with
  | "" => false
  | _ => on_disk h p
  end.

(** [str(v)], also what ["{}".format(v)] inserts. *)
Definition py_str (h : Host) (v : pyval) : string :=
  match v with
  | PStr s => s
  | _ => str_other h v
  end.

Definition os_sep : string := "\".

(** ** The module *)

Definition HIPS_NAME : string := "HIPS".
Definition HIPS_VERSIONS : list string :=
  ["12.0"; "11.4"; "11.3"; "11.2"; "11.1"; "10.4"; "10.3"; "10.2"].
Definition BASE_EDITOR_NAME : string := "BASE Editor".
Definition BASE_EDITOR_VERSIONS : list string :=
  ["6.1"; "5.5"; "5.4"; "5.3"; "5.2"; "5.1"; "4.4"; "4.3"; "4.2"].

(** How one iteration of the [for] loop hands over: to the next element
    ([continue], or the end of the body) or out of the loop ([break]). *)
Inductive flow : Type := Next | Break.

Section Resolver.

Variable h : Host.

(** The key opened for a version. *)
Definition version_key (app_key vHIPS : string) : string :=
  String.concat os_sep
    ["SOFTWARE"; "CARIS"; app_key; vHIPS; "Environment Variables"].

(** The body of the [try] statement for one version, from the list of
    matches so far to the new list. *)
Definition try_body (regHKLM : HKEY h) (exe_name app_key : string)
    (get_all_versions : bool) (subdir : string)
    (vHIPS : string) (versions : list pyval) : res (list pyval * flow) :=
  kBDB <- winreg (OpenKey h regHKLM (version_key app_key vHIPS)) ;;
  p2hipsinst <- winreg (QueryValueEx h kBDB "install_dir") ;;
  let batch_engine := os_path_join h p2hipsinst subdir exe_name in
  if negb (os_path_exists h batch_engine) then Ok (versions, Next)
  else
    vers <- float vHIPS ;;
    let versions := versions ++ [PList [PStr batch_engine; PFloat vers]] in
    if negb get_all_versions then Ok (versions, Break)
    else Ok (versions, Next).

(** [try: ... except WindowsError: continue] *)
Definition iteration (regHKLM : HKEY h) (exe_name app_key : string)
    (get_all_versions : bool) (subdir : string)
    (vHIPS : string) (versions : list pyval) : res (list pyval * flow) :=
  match try_body regHKLM exe_name app_key get_all_versions subdir
          vHIPS versions with
  | Raise (WindowsError _) => Ok (versions, Next)
  | r => r
  end.

Fixpoint for_loop (regHKLM : HKEY h) (exe_name app_key : string)
    (get_all_versions : bool) (subdir : string)
    (accepted_versions : list string) (versions : list pyval)
  : res (list pyval) :=
  match accepted_versions with
  | [] => Ok versions
  | vHIPS :: rest =>
      r <- iteration regHKLM exe_name app_key get_all_versions subdir
             vHIPS versions ;;
      match r with
      | (versions, Break) => Ok versions
      | (versions, Next) =>
          for_loop regHKLM exe_name app_key get_all_versions subdir
            rest versions
      end
  end.

Definition caris_command_finder (exe_name : string)
    (accepted_versions : list string) (app_key : string)
    (get_all_versions : bool) (subdir : string) : res pyval :=
  regHKLM <- winreg (ConnectRegistry h) ;;
  versions <- for_loop regHKLM exe_name app_key get_all_versions subdir
                accepted_versions [] ;;
  if get_all_versions then Ok (PList versions)
  else
    match versions with
    | v0 :: _ => Ok v0
    | [] => Ok (PTuple [PStr ""; PStr ""])
    end.

Definition get_hips_command_from_version (vers : pyval) : res pyval :=
  r <- caris_command_finder "carisbatch.exe" [py_str h vers] "HIPS"
         false "bin" ;;
  bv <- unpack2 r ;;
  let '(batch_engine, vers) := bv in
  if negb (truthy batch_engine) then
    Raise (Exception ("No Batch Engine found...is CARIS HIPS and SIPS "
                      ++ py_str h vers ++ " installed?"))
  else Ok batch_engine.

(** [not versions or not versions[0]] *)
Definition nothing_found (versions : pyval) : res bool :=
  if negb (truthy versions) then Ok true
  else v0 <- getitem0 versions ;; Ok (negb (truthy v0)).

Definition command_finder_hips (get_all_versions : bool) : res pyval :=
  versions <- caris_command_finder "carisbatch.exe" HIPS_VERSIONS HIPS_NAME
                get_all_versions "bin" ;;
  c <- nothing_found versions ;;
  if c then
    Raise (Exception "No Batch Engine found...is CARIS HIPS and SIPS installed?")
  else Ok versions.

Definition get_all_hips_versions : res pyval :=
  versions <- command_finder_hips true ;;
  Ok versions.

Definition command_finder_base (get_all_versions : bool) : res pyval :=
  versions <- caris_command_finder "carisbatch.exe" BASE_EDITOR_VERSIONS
                BASE_EDITOR_NAME get_all_versions "bin" ;;
  c <- nothing_found versions ;;
  if c then
    Raise (Exception "No Batch Engine found...is CARIS BASE Editor installed?")
  else Ok versions.

End Resolver.

(** ** Vocabulary of the specification *)

Section Vocabulary.

Variable h : Host.
Variable regHKLM : HKEY h.
Variables exe_name app_key subdir : string.

(** A version _resolves_ when its registry node is present with an
    [install_dir] and the executable path built from it exists; [probe]
    gives that path. *)
Definition probe (vHIPS : string) : option string :=
  match OpenKey h regHKLM (version_key app_key vHIPS) with
  | Failure _ => None
  | Success kBDB =>
      match QueryValueEx h kBDB "install_dir" with
      | Failure _ => None
      | Success p2hipsinst =>
          let batch_engine := os_path_join h p2hipsinst subdir exe_name in
          if os_path_exists h batch_engine then Some batch_engine else None
      end
  end.

Definition resolves (vHIPS : string) : bool :=
  match probe vHIPS with
  | Some _ => true
  | None => false
  end.

(** The registry fails on the version: its subtree cannot be opened, or
    [install_dir] cannot be read from it. *)
Definition store_error (vHIPS : string) : Prop :=
  match OpenKey h regHKLM (version_key app_key vHIPS) with
  | Failure _ => True
  | Success kBDB =>
      match QueryValueEx h kBDB "install_dir" with
      | Failure _ => True
      | Success _ => False
      end
  end.

(** [m] is the match of version [vHIPS]: its executable path and its
    version string parsed as a float. *)
Definition match_of (vHIPS : string) (m : pyval) : Prop :=
  exists path vers,
    probe vHIPS = Some path /\ float vHIPS = Ok vers /\
    m = PList [PStr path; PFloat vers].

(** A recorded match: a path that passed the existence check, and a float. *)
Definition checked_match (m : pyval) : Prop :=
  exists path vers,
    m = PList [PStr path; PFloat vers] /\ os_path_exists h path = true.

End Vocabulary.

(** What the resolver returns when nothing is found: the empty list in
    collect-all mode, the pair of empty strings in first-match mode. *)
Definition empty_result (r : pyval) : bool :=
  match r with
  | PList [] => true
  | PTuple [PStr ""; PStr ""] => true
  | _ => false
  end.

(** [needle in hay] *)
Fixpoint contains (needle hay : string) {struct hay} : bool :=
  match hay with
  | EmptyString => String.prefix needle hay
  | String _ rest => String.prefix needle hay || contains needle rest
  end.

(** The contract of a family wrapper, for its outcome [wrapper] and the
    outcome [resolver] of the resolver call it makes: the wrapper raises the
    domain error, whose message carries the product name, exactly when the
    resolver returned an empty result; and when a version of the family
    resolves, the wrapper returns what the resolver returned. *)
Definition wrapper_contract (h : Host) (name : string)
    (accepted : list string) (wrapper resolver : res pyval) : Prop :=
  (forall x, resolver = Ok x -> empty_result x = true ->
     exists msg, wrapper = Raise (Exception msg) /\
                 contains name msg = true) /\
  (forall msg, wrapper = Raise (Exception msg) ->
     contains name msg = true /\
     exists x, resolver = Ok x /\ empty_result x = true) /\
  (forall regHKLM, ConnectRegistry h = Success regHKLM ->
     Exists (fun v => resolves h regHKLM "carisbatch.exe" name "bin" v = true)
       accepted ->
     wrapper = resolver /\
     exists x, resolver = Ok x /\ empty_result x = false).

(** The exact rational value of a finite binary64 number. *)
Definition Qvalue (f : pyfloat) : Q :=
  match f with
  | S754_finite s m e =>
      (inject_Z (if s then Z.neg m else Z.pos m) * Qpower (2 # 1) e)%Q
  | _ => 0%Q
  end.

(** ** Hosts to run the module on *)
Module Sample.

(** A machine whose registry holds the given [(key, install_dir)] entries
    and whose disk holds the given files. *)
Definition host (connect : winreg_result string)
    (registry : list (string * string)) (files : list string) : Host :=
  {| HKEY := string;
     ConnectRegistry := connect;
     OpenKey := fun _ sub_key =>
       if existsb (fun kv => String.eqb (fst kv) sub_key) registry
       then Success sub_key else Failure 2;
     QueryValueEx := fun key name =>
       match find (fun kv => String.eqb (fst kv) key) registry with
       | Some kv => if String.eqb name "install_dir" then Success (snd kv)
                    else Failure 2
       | None => Failure 2
       end;
     os_path_join := fun a b c => (a ++ "\" ++ b ++ "\" ++ c)%string;
     on_disk := fun p => existsb (String.eqb p) files;
     str_other := fun _ => "<object>" |}.

Definition HKLM : string := "HKEY_LOCAL_MACHINE".

Definition hips_key (v : string) : string :=
  ("SOFTWARE\CARIS\HIPS\" ++ v ++ "\Environment Variables")%string.
Definition hips_dir (v : string) : string :=
  ("C:\CARIS\HIPS and SIPS\" ++ v)%string.
Definition hips_exe (v : string) : string :=
  (hips_dir v ++ "\bin\carisbatch.exe")%string.

(** HIPS versions installed with their batch engine. *)
Definition with_hips (vs : list string) : Host :=
  host (Success HKLM)
    (map (fun v => (hips_key v, hips_dir v)) vs) (map hips_exe vs).

(** Nothing installed. *)
Definition bare : Host := with_hips [].

(** The registry cannot be reached (access denied). *)
Definition unreachable : Host := host (Failure 5) [] [].

(** 11.4 is installed; 12.0 is registered, but its executable is not on
    disk. *)
Definition partial : Host :=
  host (Success HKLM)
    [(hips_key "12.0", hips_dir "12.0"); (hips_key "11.4", hips_dir "11.4")]
    [hips_exe "11.4"].

End Sample.

(** * Properties *)

(** [float] raises nothing but [ValueError]. *)
Lemma float_cases (s : string) :
  (exists vers, float s = Ok vers) \/
  float s =
    Raise (ValueError
             ("could not convert string to float: " ++ PyStr.repr s)).
Proof.
  unfold float. destruct (PyFloat.parse s) as [f|].
  - left. now exists f.
  - now right.
Qed.

(** ** One iteration and the loop *)

Section LoopFacts.

Variable h : Host.
Variable regHKLM : HKEY h.
Variables exe_name app_key subdir : string.

Local Abbreviation probe' := (probe h regHKLM exe_name app_key subdir).
Local Abbreviation resolves' := (resolves h regHKLM exe_name app_key subdir).
Local Abbreviation iteration' := (iteration h regHKLM exe_name app_key).
Local Abbreviation for_loop' := (for_loop h regHKLM exe_name app_key).

(** A version that does not resolve leaves the list as it is and the loop
    goes on, whatever the reason. *)
Lemma iteration_unresolved (g : bool) (v : string) (versions : list pyval) :
  probe' v = None ->
  iteration' g subdir v versions = Ok (versions, Next).
Proof.
  unfold probe, iteration, try_body.
  destruct (OpenKey h regHKLM (version_key app_key v)) as [k|c]; simpl;
    [|reflexivity].
  destruct (QueryValueEx h k "install_dir") as [p|c]; simpl; [|reflexivity].
  destruct (os_path_exists h (os_path_join h p subdir exe_name)); simpl;
    [discriminate | reflexivity].
Qed.

(** A version that resolves' is parsed and recorded; first-match mode then
    leaves the loop. *)
Lemma iteration_resolved (g : bool) (v path : string) (versions : list pyval) :
  probe' v = Some path ->
  iteration' g subdir v versions =
    (vers <- float v ;;
     Ok (versions ++ [PList [PStr path; PFloat vers]],
         if g then Next else Break)).
Proof.
  unfold probe, iteration, try_body.
  destruct (OpenKey h regHKLM (version_key app_key v)) as [k|c]; simpl;
    [|discriminate].
  destruct (QueryValueEx h k "install_dir") as [p|c]; simpl; [|discriminate].
  destruct (os_path_exists h (os_path_join h p subdir exe_name)); simpl;
    [|discriminate].
  intros [= <-].
  destruct (float_cases v) as [[vers ->] | ->]; simpl; [|reflexivity].
  now destruct g.
Qed.

Lemma store_error_unresolved (v : string) :
  store_error h regHKLM app_key v -> probe' v = None.
Proof.
  unfold store_error, probe.
  destruct (OpenKey h regHKLM (version_key app_key v)) as [k|c];
    [|reflexivity].
  destruct (QueryValueEx h k "install_dir") as [p|c]; [intros []|reflexivity].
Qed.

Lemma probe_exists (v path : string) :
  probe' v = Some path -> os_path_exists h path = true.
Proof.
  unfold probe.
  destruct (OpenKey h regHKLM (version_key app_key v)) as [k|c];
    [|discriminate].
  destruct (QueryValueEx h k "install_dir") as [p|c]; [|discriminate].
  destruct (os_path_exists h (os_path_join h p subdir exe_name)) eqn:E;
    [|discriminate].
  now intros [= <-].
Qed.

(** Unresolved versions can be dropped from the list anywhere. *)
Lemma for_loop_skip (g : bool) (pre post : list string) (v : string) :
  probe' v = None ->
  forall versions,
    for_loop' g subdir (pre ++ v :: post) versions =
    for_loop' g subdir (pre ++ post) versions.
Proof.
  intros Hv. induction pre as [|u pre IH]; intros versions; simpl.
  - now rewrite (iteration_unresolved g v versions Hv).
  - destruct (iteration' g subdir u versions) as [[vs [|]]|e]; simpl;
      auto.
Qed.

Lemma for_loop_skip_prefix (g : bool) (pre rest : list string) :
  Forall (fun u => probe' u = None) pre ->
  forall versions,
    for_loop' g subdir (pre ++ rest) versions =
    for_loop' g subdir rest versions.
Proof.
  induction 1 as [|u pre Hu _ IH]; intros versions; simpl; [reflexivity|].
  rewrite (iteration_unresolved g u versions Hu). simpl. apply IH.
Qed.

Lemma for_loop_unresolved (g : bool) (accepted : list string) :
  Forall (fun u => probe' u = None) accepted ->
  forall versions, for_loop' g subdir accepted versions = Ok versions.
Proof.
  intros H versions.
  rewrite <- (app_nil_r accepted).
  now rewrite for_loop_skip_prefix.
Qed.

(** The loop up to and including the earliest version that resolves'. *)
Lemma for_loop_first (g : bool) (pre post : list string) (v path : string)
    (versions : list pyval) :
  Forall (fun u => probe' u = None) pre ->
  probe' v = Some path ->
  for_loop' g subdir (pre ++ v :: post) versions =
    (vers <- float v ;;
     let versions' := versions ++ [PList [PStr path; PFloat vers]] in
     if g then for_loop' g subdir post versions' else Ok versions').
Proof.
  intros Hpre Hv. rewrite for_loop_skip_prefix by assumption. simpl.
  rewrite (iteration_resolved g v path versions Hv).
  destruct (float_cases v) as [[vers ->] | ->]; simpl; [|reflexivity].
  now destruct g.
Qed.

(** Collect-all mode appends, in order, one match per resolvable version. *)
Lemma for_loop_collect (accepted : list string) :
  Forall (fun v => resolves' v = true -> exists vers, float v = Ok vers)
    accepted ->
  forall versions, exists ms,
    for_loop' true subdir accepted versions = Ok (versions ++ ms) /\
    Forall2 (match_of h regHKLM exe_name app_key subdir)
      (filter resolves' accepted) ms.
Proof.
  induction 1 as [|v accepted Hv _ IH]; intros versions; simpl.
  - exists []. rewrite app_nil_r. split; [reflexivity | constructor].
  - unfold resolves in *. destruct (probe' v) as [path|] eqn:E.
    + destruct (Hv eq_refl) as [vers Hf].
      rewrite (iteration_resolved true v path versions E), Hf. simpl.
      destruct (IH (versions ++ [PList [PStr path; PFloat vers]]))
        as [ms [-> HF]].
      exists (PList [PStr path; PFloat vers] :: ms).
      rewrite <- app_assoc. split; [reflexivity|].
      constructor; [|assumption]. now exists path, vers.
    + rewrite (iteration_unresolved true v versions E). simpl. apply IH.
Qed.

(** Matches of versions with pairwise distinct executable paths are
    pairwise distinct. *)
Lemma matches_NoDup (l : list string) (ms : list pyval) :
  Forall2 (match_of h regHKLM exe_name app_key subdir) l ms ->
  NoDup (map probe' l) -> NoDup ms.
Proof.
  induction 1 as [|v m l ms Hm HF IH]; intros Hnd; [constructor|].
  simpl in Hnd. inversion Hnd as [|? ? Hnotin Hnd']; subst.
  constructor; [|now apply IH].
  intros Hin. apply Hnotin. clear IH Hnd Hnd' Hnotin.
  destruct Hm as [path [vers [Hp [_ ->]]]]. rewrite Hp.
  induction HF as [|v' m' l ms Hm' _ IH]; [destruct Hin|].
  destruct Hin as [-> | Hin]; [|right; now apply IH].
  left. destruct Hm' as [path' [vers' [Hp' [_ [= <- _]]]]]. assumption.
Qed.

(** The loop raises nothing but the [ValueError] of [float]. *)
Lemma for_loop_raises (g : bool) (accepted : list string) :
  forall versions e,
    for_loop' g subdir accepted versions = Raise e ->
    exists msg, e = ValueError msg.
Proof.
  induction accepted as [|v accepted IH]; intros versions e; simpl;
    [discriminate|].
  destruct (probe' v) as [path|] eqn:E.
  - rewrite (iteration_resolved g v path versions E).
    destruct (float_cases v) as [[vers ->] | ->]; simpl.
    + destruct g; [apply IH | discriminate].
    + intros [= <-]. eauto.
  - rewrite (iteration_unresolved g v versions E). simpl. apply IH.
Qed.

(** Everything the loop adds to the list is a checked match. *)
Lemma for_loop_checked (g : bool) (accepted : list string) :
  forall versions vs,
    Forall (checked_match h) versions ->
    for_loop' g subdir accepted versions = Ok vs ->
    Forall (checked_match h) vs.
Proof.
  induction accepted as [|v accepted IH]; intros versions vs Hvs; simpl.
  - now intros [= <-].
  - destruct (probe' v) as [path|] eqn:E.
    + rewrite (iteration_resolved g v path versions E).
      destruct (float_cases v) as [[vers ->] | ->]; simpl; [|discriminate].
      assert (Forall (checked_match h)
                (versions ++ [PList [PStr path; PFloat vers]])) as Hvs'.
      { apply Forall_app. split; [assumption|].
        constructor; [|constructor].
        exists path, vers. split; [reflexivity|].
        now apply (probe_exists v). }
      destruct g; [now apply IH | now intros [= <-]].
    + rewrite (iteration_unresolved g v versions E). simpl. now apply IH.
Qed.

(** When every version parses, the loop returns, and with a match as soon as
    one version resolves'. *)
Lemma for_loop_returns (g : bool) (accepted : list string) :
  Forall (fun v => exists vers, float v = Ok vers) accepted ->
  forall versions, exists ms,
    for_loop' g subdir accepted versions = Ok (versions ++ ms) /\
    (Exists (fun v => resolves' v = true) accepted -> ms <> []).
Proof.
  induction 1 as [|v accepted [vers Hf] _ IH]; intros versions; simpl.
  - exists []. rewrite app_nil_r. split; [reflexivity|]. inversion 1.
  - unfold resolves in *. destruct (probe' v) as [path|] eqn:E.
    + rewrite (iteration_resolved g v path versions E), Hf. simpl.
      destruct g.
      * destruct (IH (versions ++ [PList [PStr path; PFloat vers]]))
          as [ms [-> _]].
        exists (PList [PStr path; PFloat vers] :: ms).
        rewrite <- app_assoc. split; [reflexivity | discriminate].
      * exists [PList [PStr path; PFloat vers]].
        split; [reflexivity | discriminate].
    + rewrite (iteration_unresolved g v versions E). simpl.
      destruct (IH versions) as [ms [-> Hms]]. exists ms.
      split; [reflexivity|]. intros Hex. apply Hms.
      inversion Hex as [? ? Hv | ? ? Hr]; subst; [|assumption].
      rewrite E in Hv. discriminate.
Qed.

End LoopFacts.

(** ** The resolver *)

Section ResolverFacts.

Variable h : Host.
Variables exe_name app_key subdir : string.

Local Abbreviation finder accepted g :=
  (caris_command_finder h exe_name accepted app_key g subdir).

(** Once connected, the resolver is its loop followed by the choice of the
    result shape. *)
Lemma caris_command_finder_connected (regHKLM : HKEY h)
    (accepted : list string) (g : bool) :
  ConnectRegistry h = Success regHKLM ->
  finder accepted g =
    (versions <- for_loop h regHKLM exe_name app_key g subdir accepted [] ;;
     if g then Ok (PList versions)
     else match versions with
          | v0 :: _ => Ok v0
          | [] => Ok (PTuple [PStr ""; PStr ""])
          end).
Proof. unfold caris_command_finder. now intros ->. Qed.

Lemma caris_command_finder_unreachable (c : Z) (accepted : list string)
    (g : bool) :
  ConnectRegistry h = Failure c ->
  finder accepted g = Raise (WindowsError c).
Proof. unfold caris_command_finder. now intros ->. Qed.

(** The resolver raises the connection's [WindowsError] or the [ValueError]
    of [float], nothing else. *)
Lemma caris_command_finder_raises (accepted : list string) (g : bool)
    (e : exn) :
  finder accepted g = Raise e ->
  (exists c, e = WindowsError c) \/ (exists msg, e = ValueError msg).
Proof.
  destruct (ConnectRegistry h) as [regHKLM|c] eqn:E.
  - rewrite (caris_command_finder_connected regHKLM accepted g E).
    destruct (for_loop h regHKLM exe_name app_key g subdir accepted [])
      as [vs|e'] eqn:El; simpl.
    + destruct g; [discriminate|]. destruct vs; discriminate.
    + intros [= <-]. right. now apply for_loop_raises in El.
  - rewrite (caris_command_finder_unreachable c accepted g E).
    intros [= <-]. left. now exists c.
Qed.

(** What the resolver returns holds checked matches only. *)
Lemma caris_command_finder_checked (accepted : list string) (g : bool)
    (r : pyval) :
  finder accepted g = Ok r ->
  if g then exists ms, r = PList ms /\ Forall (checked_match h) ms
  else r = PTuple [PStr ""; PStr ""] \/ checked_match h r.
Proof.
  destruct (ConnectRegistry h) as [regHKLM|c] eqn:E.
  - rewrite (caris_command_finder_connected regHKLM accepted g E).
    destruct (for_loop h regHKLM exe_name app_key g subdir accepted [])
      as [vs|e'] eqn:El; simpl; [|discriminate].
    apply for_loop_checked in El; [|constructor].
    destruct g.
    + intros [= <-]. now exists vs.
    + destruct vs as [|v0 vs]; intros [= <-]; [now left|].
      right. now inversion El.
  - rewrite (caris_command_finder_unreachable c accepted g E). discriminate.
Qed.

End ResolverFacts.

(** On a result of the resolver, the wrappers' test [not versions or not
    versions[0]] is the test for an empty result. *)
Lemma nothing_found_checked (h : Host) (g : bool) (r : pyval) :
  (if g then exists ms, r = PList ms /\ Forall (checked_match h) ms
   else r = PTuple [PStr ""; PStr ""] \/ checked_match h r) ->
  nothing_found r = Ok (empty_result r).
Proof.
  destruct g.
  - intros [ms [-> Hms]]. destruct ms as [|m ms]; [reflexivity|].
    inversion Hms as [|? ? [path [vers [-> _]]] _]; subst. reflexivity.
  - intros [-> | [path [vers [-> Hp]]]]; [reflexivity|].
    destruct path; [discriminate Hp | reflexivity].
Qed.

(** The body shared by [command_finder_hips] and [command_finder_base]. *)
Lemma family_wrapper_contract (h : Host) (name msg : string)
    (accepted : list string) (g : bool) :
  contains name msg = true ->
  Forall (fun v => exists vers, float v = Ok vers) accepted ->
  wrapper_contract h name accepted
    (versions <- caris_command_finder h "carisbatch.exe" accepted name g
                   "bin" ;;
     c <- nothing_found versions ;;
     if c then Raise (Exception msg) else Ok versions)
    (caris_command_finder h "carisbatch.exe" accepted name g "bin").
Proof.
  intros Hname Hparse. unfold wrapper_contract.
  destruct (caris_command_finder h "carisbatch.exe" accepted name g "bin")
    as [x|e] eqn:E; simpl.
  - pose proof (caris_command_finder_checked _ _ _ _ _ _ _ E) as Hx.
    rewrite (nothing_found_checked h g x Hx). simpl.
    assert (forall regHKLM, ConnectRegistry h = Success regHKLM ->
              Exists (fun v => resolves h regHKLM "carisbatch.exe" name "bin"
                                 v = true) accepted ->
              empty_result x = false) as Hres.
    { intros regHKLM Hc Hex.
      rewrite (caris_command_finder_connected _ _ _ _ _ _ _ Hc) in E.
      destruct (for_loop_returns h regHKLM "carisbatch.exe" name "bin" g
                  accepted Hparse []) as [ms [El Hms]].
      rewrite El in E. simpl in E. specialize (Hms Hex).
      destruct ms as [|m ms]; [now elim Hms|].
      destruct g; injection E as <-; [reflexivity|].
      apply for_loop_checked in El; [|constructor].
      inversion El as [|? ? [path [vers [-> _]]] _]. reflexivity. }
    split; [|split].
    + intros x' [= <-] ->. exists msg. now split.
    + intros m. destruct (empty_result x) eqn:Ee; [|discriminate].
      intros [= <-]. split; [assumption|]. now exists x.
    + intros regHKLM Hc Hex. rewrite (Hres regHKLM Hc Hex).
      split; [reflexivity|]. exists x. split; [reflexivity|]. eauto.
  - split; [|split].
    + discriminate.
    + intros m [= ->].
      destruct (caris_command_finder_raises _ _ _ _ _ _ _ E)
        as [[c [=]] | [m' [=]]].
    + intros regHKLM Hc _. exfalso.
      rewrite (caris_command_finder_connected _ _ _ _ _ _ _ Hc) in E.
      destruct (for_loop_returns h regHKLM "carisbatch.exe" name "bin" g
                  accepted Hparse []) as [ms [El _]].
      rewrite El in E. simpl in E. destruct g; [discriminate|].
      destruct ms; discriminate.
Qed.

(** ** Search order and result shapes

    The registry is reachable here: [ConnectRegistry] returned [regHKLM]. *)

Section Connected.

Variable h : Host.
Variable regHKLM : HKEY h.
Hypothesis connected : ConnectRegistry h = Success regHKLM.
Variables exe_name app_key subdir : string.

Local Abbreviation probe' := (probe h regHKLM exe_name app_key subdir).
Local Abbreviation resolves' := (resolves h regHKLM exe_name app_key subdir).

(** C1, as amended.  In first-match mode the outcome is decided by the
    version that resolves earliest in [accepted_versions], whatever the
    numeric order of the versions: the resolver returns that version's match
    when its string parses as a float, and raises the [ValueError] of
    [float] when it does not. *)
Theorem first_match_is_earliest_resolving
    (pre post : list string) (v path : string) :
  Forall (fun u => probe' u = None) pre ->
  probe' v = Some path ->
  caris_command_finder h exe_name (pre ++ v :: post) app_key false subdir =
    (vers <- float v ;; Ok (PList [PStr path; PFloat vers])).
Proof.
  intros Hpre Hv.
  rewrite (caris_command_finder_connected _ _ _ _ _ _ _ connected).
  rewrite (for_loop_first _ _ _ _ _ false pre post v path [] Hpre Hv).
  destruct (float_cases v) as [[vers ->] | ->]; reflexivity.
Qed.

(** C2.  When no version of [accepted_versions] resolves, first-match mode
    returns the pair of empty strings and collect-all mode returns the empty
    list. *)
Theorem nothing_resolves_gives_placeholders (accepted : list string) :
  Forall (fun u => probe' u = None) accepted ->
  caris_command_finder h exe_name accepted app_key false subdir =
    Ok (PTuple [PStr ""; PStr ""]) /\
  caris_command_finder h exe_name accepted app_key true subdir = Ok (PList []).
Proof.
  intros Hnone.
  rewrite !(caris_command_finder_connected _ _ _ _ _ _ _ connected).
  now rewrite !for_loop_unresolved.
Qed.

(** C5, as amended.  When exactly one version of [accepted_versions]
    resolves and its string parses as a float, first-match mode returns its
    match and collect-all mode returns the list of that one match; when the
    string does not parse, both modes raise the [ValueError] of [float]. *)
Theorem single_match_same_in_both_modes
    (pre post : list string) (v path : string) :
  Forall (fun u => probe' u = None) pre ->
  probe' v = Some path ->
  Forall (fun u => probe' u = None) post ->
  caris_command_finder h exe_name (pre ++ v :: post) app_key false subdir =
    (vers <- float v ;; Ok (PList [PStr path; PFloat vers])) /\
  caris_command_finder h exe_name (pre ++ v :: post) app_key true subdir =
    (vers <- float v ;; Ok (PList [PList [PStr path; PFloat vers]])).
Proof.
  intros Hpre Hv Hpost.
  rewrite !(caris_command_finder_connected _ _ _ _ _ _ _ connected).
  rewrite !(for_loop_first _ _ _ _ _ _ pre post v path [] Hpre Hv).
  destruct (float_cases v) as [[vers ->] | ->]; simpl; [|now split].
  now rewrite for_loop_unresolved.
Qed.

(** C6, as amended.  When every resolvable version of [accepted_versions]
    parses as a float, collect-all mode returns the matches of the resolvable
    versions, one per resolvable entry and in the order of
    [accepted_versions]; the returned list has no duplicates when the
    resolvable entries have pairwise distinct executable paths. *)
Theorem collect_all_is_resolvable_subsequence (accepted : list string) :
  Forall (fun v => resolves' v = true -> exists vers, float v = Ok vers)
    accepted ->
  exists ms,
    caris_command_finder h exe_name accepted app_key true subdir =
      Ok (PList ms) /\
    Forall2 (match_of h regHKLM exe_name app_key subdir)
      (filter resolves' accepted) ms /\
    (NoDup (map probe' (filter resolves' accepted)) -> NoDup ms).
Proof.
  intros Hparse.
  destruct (for_loop_collect h regHKLM exe_name app_key subdir accepted
              Hparse []) as [ms [El HF]].
  exists ms.
  rewrite (caris_command_finder_connected _ _ _ _ _ _ _ connected), El.
  repeat split; [assumption|].
  now apply (matches_NoDup h regHKLM exe_name app_key subdir
               (filter resolves' accepted)).
Qed.

(** C10, as amended.  A version that resolves but whose string does not
    parse as a float makes the resolver raise the exception of [float], a
    [ValueError], when the loop reaches it: in collect-all mode when the
    resolvable versions before it all parse, in first-match mode when no
    version before it resolves. *)
Theorem unparsable_version_raises
    (g : bool) (pre post : list string) (v path : string) (e : exn) :
  Forall (fun u => probe' u = None \/
                   (g = true /\ exists vers, float u = Ok vers)) pre ->
  probe' v = Some path ->
  float v = Raise e ->
  caris_command_finder h exe_name (pre ++ v :: post) app_key g subdir =
    Raise e /\
  exists msg, e = ValueError msg.
Proof.
  intros Hpre Hv Hf.
  rewrite (caris_command_finder_connected _ _ _ _ _ _ _ connected).
  assert (forall versions,
            for_loop h regHKLM exe_name app_key g subdir (pre ++ v :: post)
              versions = Raise e)
    as Hloop.
  { induction Hpre as [|u pre Hu _ IH]; intros versions.
    - rewrite (for_loop_first _ _ _ _ _ g [] post v path versions
                 (Forall_nil _) Hv).
      now rewrite Hf.
    - simpl. destruct (probe' u) as [pu|] eqn:Eu.
      + destruct Hu as [[=] | [-> [vers Hu]]].
        rewrite (iteration_resolved _ _ _ _ _ true u pu versions Eu), Hu.
        simpl. apply IH.
      + rewrite (iteration_unresolved _ _ _ _ _ g u versions Eu). simpl.
        apply IH. }
  rewrite Hloop. split; [reflexivity|].
  destruct (float_cases v) as [[vers Hok] | Hraise]; rewrite Hf in *.
  - discriminate.
  - injection Hraise as ->. eauto.
Qed.

End Connected.

(** C7.  Every path that the resolver returns, as the first component of the
    first-match pair or in an element of the collect-all list, passed the
    existence check; the only other result is the pair of empty strings. *)
Theorem returned_paths_passed_existence_check
    (h : Host) (exe_name app_key subdir : string)
    (accepted : list string) (g : bool) (r : pyval) :
  caris_command_finder h exe_name accepted app_key g subdir = Ok r ->
  if g then exists ms, r = PList ms /\ Forall (checked_match h) ms
  else r = PTuple [PStr ""; PStr ""] \/ checked_match h r.
Proof. apply caris_command_finder_checked. Qed.

(** C8.  A failed connection to the registry reaches the caller as it is,
    and a registry failure on one version is swallowed: the resolver behaves
    as if that version were not in the list. *)
Theorem store_failures_propagate_or_skip
    (h : Host) (exe_name app_key subdir : string) (g : bool) :
  (forall c accepted,
      ConnectRegistry h = Failure c ->
      caris_command_finder h exe_name accepted app_key g subdir =
        Raise (WindowsError c)) /\
  (forall regHKLM pre v post,
      ConnectRegistry h = Success regHKLM ->
      store_error h regHKLM app_key v ->
      caris_command_finder h exe_name (pre ++ v :: post) app_key g subdir =
      caris_command_finder h exe_name (pre ++ post) app_key g subdir).
Proof.
  split.
  - intros c accepted. apply caris_command_finder_unreachable.
  - intros regHKLM pre v post Hc Hv.
    rewrite !(caris_command_finder_connected _ _ _ _ _ _ _ Hc).
    rewrite (for_loop_skip h regHKLM exe_name app_key subdir g pre post v);
      [reflexivity|].
    now apply store_error_unresolved.
Qed.

(** C3.  [command_finder_hips] and [command_finder_base] raise the domain
    error, with the product name in its message, exactly when the resolver
    returned an empty result, and return the resolver's result when a version
    of the family resolves. *)
Theorem family_wrappers_raise_iff_empty (h : Host) (g : bool) :
  wrapper_contract h HIPS_NAME HIPS_VERSIONS
    (command_finder_hips h g)
    (caris_command_finder h "carisbatch.exe" HIPS_VERSIONS HIPS_NAME g "bin")
  /\
  wrapper_contract h BASE_EDITOR_NAME BASE_EDITOR_VERSIONS
    (command_finder_base h g)
    (caris_command_finder h "carisbatch.exe" BASE_EDITOR_VERSIONS
       BASE_EDITOR_NAME g "bin").
Proof.
  split; apply family_wrapper_contract; try reflexivity;
    repeat constructor; eexists; vm_compute; reflexivity.
Qed.

(** ** The version component *)

(** Every element that the loop adds to the list is the match of one of the
    versions it went through. *)
Lemma for_loop_matches (h : Host) (regHKLM : HKEY h)
    (exe_name app_key subdir : string) (g : bool) (all accepted : list string) :
  incl accepted all ->
  forall versions vs,
    Forall (fun m => exists v, In v all /\
                     match_of h regHKLM exe_name app_key subdir v m)
      versions ->
    for_loop h regHKLM exe_name app_key g subdir accepted versions = Ok vs ->
    Forall (fun m => exists v, In v all /\
                     match_of h regHKLM exe_name app_key subdir v m) vs.
Proof.
  induction accepted as [|v accepted IH]; intros Hincl versions vs Hvs; simpl.
  - now intros [= <-].
  - assert (incl accepted all) as Hincl'
      by (intros x Hx; apply Hincl; now right).
    destruct (probe h regHKLM exe_name app_key subdir v) as [path|] eqn:E.
    + rewrite (iteration_resolved _ _ _ _ _ g v path versions E).
      destruct (float v) as [vers|e] eqn:Ef; simpl; [|discriminate].
      assert (Forall (fun m => exists v, In v all /\
                        match_of h regHKLM exe_name app_key subdir v m)
                (versions ++ [PList [PStr path; PFloat vers]])) as Hvs'.
      { apply Forall_app. split; [assumption|].
        constructor; [|constructor].
        exists v. split; [apply Hincl; now left|]. now exists path, vers. }
      destruct g; [now apply IH | now intros [= <-]].
    + rewrite (iteration_unresolved _ _ _ _ _ g v versions E). simpl.
      now apply IH.
Qed.

(** C9.  The strings ["11.4"] and ["10.2"] parse to the binary64 numbers
    11.4 and 10.2, which lie within half a unit in the last place of the
    decimal values; the resolver records, for a version that resolves, its
    string parsed by [float], in the first-match pair and in every element of
    the collect-all list. *)
#[warnings="-inexact-float"] Theorem version_is_parsed_float :
  float "11.4" = Ok (Prim2SF 11.4%float) /\
  float "10.2" = Ok (Prim2SF 10.2%float) /\
  (Qabs (Qvalue (Prim2SF 11.4%float) - (114 # 10)) <= 1 # 2 ^ 50)%Q /\
  (Qabs (Qvalue (Prim2SF 10.2%float) - (102 # 10)) <= 1 # 2 ^ 50)%Q /\
  forall (h : Host) (regHKLM : HKEY h) (exe_name app_key subdir : string),
    ConnectRegistry h = Success regHKLM ->
    (forall pre v post path vers,
        Forall (fun u => probe h regHKLM exe_name app_key subdir u = None)
          pre ->
        probe h regHKLM exe_name app_key subdir v = Some path ->
        float v = Ok vers ->
        caris_command_finder h exe_name (pre ++ v :: post) app_key false
          subdir = Ok (PList [PStr path; PFloat vers])) /\
    (forall accepted ms,
        caris_command_finder h exe_name accepted app_key true subdir =
          Ok (PList ms) ->
        Forall (fun m => exists v, In v accepted /\
                         match_of h regHKLM exe_name app_key subdir v m) ms).
Proof.
  split; [vm_compute; reflexivity|].
  split; [vm_compute; reflexivity|].
  split; [apply Qle_bool_imp_le; vm_compute; reflexivity|].
  split; [apply Qle_bool_imp_le; vm_compute; reflexivity|].
  intros h regHKLM exe_name app_key subdir Hc. split.
  - intros pre v post path vers Hpre Hv Hf.
    rewrite (caris_command_finder_connected _ _ _ _ _ _ _ Hc).
    rewrite (for_loop_first _ _ _ _ _ false pre post v path [] Hpre Hv), Hf.
    reflexivity.
  - intros accepted ms.
    rewrite (caris_command_finder_connected _ _ _ _ _ _ _ Hc).
    destruct (for_loop h regHKLM exe_name app_key true subdir accepted [])
      as [vs|e] eqn:El; simpl; [|discriminate].
    intros [= <-].
    apply (for_loop_matches h regHKLM exe_name app_key subdir true accepted
             accepted (incl_refl _) [] vs (Forall_nil _) El).
Qed.

(** ** The exact-version lookup *)

(** When the requested version does not resolve, the error message of
    [get_hips_command_from_version] is the same for every request: [vers] has
    been rebound to the second component of the resolver's placeholder pair
    by the time the message is formatted. *)
Lemma get_hips_command_from_version_not_found
    (h : Host) (regHKLM : HKEY h) (vers : pyval) :
  ConnectRegistry h = Success regHKLM ->
  probe h regHKLM "carisbatch.exe" "HIPS" "bin" (py_str h vers) = None ->
  get_hips_command_from_version h vers =
    Raise (Exception
             "No Batch Engine found...is CARIS HIPS and SIPS  installed?").
Proof.
  intros Hc Hv. unfold get_hips_command_from_version.
  rewrite (caris_command_finder_connected _ _ _ _ _ _ _ Hc).
  rewrite for_loop_unresolved by (constructor; [assumption | constructor]).
  reflexivity.
Qed.

(** C4, on the code.  With no HIPS installed, the lookup of version 11.4
    raises the domain error, and its message does not name 11.4. *)
Theorem exact_version_error_omits_version :
  get_hips_command_from_version Sample.bare (PStr "11.4") =
    Raise (Exception
             "No Batch Engine found...is CARIS HIPS and SIPS  installed?") /\
  contains "11.4"
    "No Batch Engine found...is CARIS HIPS and SIPS  installed?" = false.
Proof. split; vm_compute; reflexivity. Qed.

(** ** Instances *)

Module Instances.
Import Sample.

(** 10.2 stands before 11.4 in the list, both resolve: 10.2 is returned. *)
#[warnings="-inexact-float"] Lemma first_match_is_earliest_resolving_witness :
  probe (with_hips ["11.4"; "10.2"]) HKLM "carisbatch.exe" "HIPS" "bin" "10.2"
    = Some (hips_exe "10.2") /\
  caris_command_finder (with_hips ["11.4"; "10.2"]) "carisbatch.exe"
    ["12.0"; "10.2"; "11.4"] "HIPS" false "bin" =
    Ok (PList [PStr (hips_exe "10.2"); PFloat (Prim2SF 10.2%float)]).
Proof.
  split; [reflexivity|].
  refine (first_match_is_earliest_resolving (with_hips ["11.4"; "10.2"]) HKLM
            eq_refl "carisbatch.exe" "HIPS" "bin" ["12.0"] ["11.4"] "10.2"
            (hips_exe "10.2") _ _).
  - repeat constructor.
  - reflexivity.
Defined.

(** Both versions resolve, the earlier one does not parse: the resolver
    raises instead of returning a match. *)
Lemma first_match_counterexample :
  resolves (with_hips ["11.4.1"; "11.4"]) HKLM "carisbatch.exe" "HIPS" "bin"
    "11.4.1" = true /\
  resolves (with_hips ["11.4.1"; "11.4"]) HKLM "carisbatch.exe" "HIPS" "bin"
    "11.4" = true /\
  caris_command_finder (with_hips ["11.4.1"; "11.4"]) "carisbatch.exe"
    ["11.4.1"; "11.4"] "HIPS" false "bin" =
    Raise (ValueError "could not convert string to float: '11.4.1'").
Proof. repeat split; vm_compute; reflexivity. Qed.

Lemma nothing_resolves_gives_placeholders_witness :
  caris_command_finder bare "carisbatch.exe" ["12.0"; "11.4"] "HIPS" false
    "bin" = Ok (PTuple [PStr ""; PStr ""]) /\
  caris_command_finder bare "carisbatch.exe" ["12.0"; "11.4"] "HIPS" true
    "bin" = Ok (PList []).
Proof.
  apply (nothing_resolves_gives_placeholders bare HKLM eq_refl
           "carisbatch.exe" "HIPS" "bin" ["12.0"; "11.4"]).
  repeat constructor.
Defined.

#[warnings="-inexact-float"] Lemma single_match_same_in_both_modes_witness :
  caris_command_finder partial "carisbatch.exe" ["12.0"; "11.4"] "HIPS" false
    "bin" = Ok (PList [PStr (hips_exe "11.4"); PFloat (Prim2SF 11.4%float)]) /\
  caris_command_finder partial "carisbatch.exe" ["12.0"; "11.4"] "HIPS" true
    "bin" =
    Ok (PList [PList [PStr (hips_exe "11.4"); PFloat (Prim2SF 11.4%float)]]).
Proof.
  refine (single_match_same_in_both_modes partial HKLM eq_refl
            "carisbatch.exe" "HIPS" "bin" ["12.0"] [] "11.4"
            (hips_exe "11.4") _ _ _).
  - repeat constructor.
  - reflexivity.
  - constructor.
Defined.

(** Exactly one version resolves and it does not parse: neither mode
    returns. *)
Lemma single_match_counterexample :
  resolves (with_hips ["11.4.1"]) HKLM "carisbatch.exe" "HIPS" "bin" "12.0"
    = false /\
  resolves (with_hips ["11.4.1"]) HKLM "carisbatch.exe" "HIPS" "bin" "11.4.1"
    = true /\
  caris_command_finder (with_hips ["11.4.1"]) "carisbatch.exe"
    ["12.0"; "11.4.1"] "HIPS" false "bin" =
    Raise (ValueError "could not convert string to float: '11.4.1'") /\
  caris_command_finder (with_hips ["11.4.1"]) "carisbatch.exe"
    ["12.0"; "11.4.1"] "HIPS" true "bin" =
    Raise (ValueError "could not convert string to float: '11.4.1'").
Proof. repeat split; vm_compute; reflexivity. Qed.

Lemma collect_all_is_resolvable_subsequence_witness :
  exists ms,
    caris_command_finder (with_hips ["11.4"; "10.2"]) "carisbatch.exe"
      ["12.0"; "10.2"; "11.4"] "HIPS" true "bin" = Ok (PList ms) /\
    Forall2
      (match_of (with_hips ["11.4"; "10.2"]) HKLM "carisbatch.exe" "HIPS"
         "bin")
      ["10.2"; "11.4"] ms /\
    NoDup ms.
Proof.
  destruct (collect_all_is_resolvable_subsequence
              (with_hips ["11.4"; "10.2"]) HKLM eq_refl "carisbatch.exe"
              "HIPS" "bin" ["12.0"; "10.2"; "11.4"])
    as [ms [Hr [HF Hnd]]].
  - repeat constructor; intros _; eexists; vm_compute; reflexivity.
  - exists ms. split; [exact Hr|]. split; [exact HF|].
    apply Hnd. vm_compute.
    repeat constructor; simpl; intuition discriminate.
Defined.

(** A resolvable version does not parse: collect-all mode returns no list,
    although 11.4 and 10.2 resolve and parse.  And with 11.4 and 11.40
    registered for one installation directory, the list of two distinct
    versions gives the same match twice. *)
#[warnings="-inexact-float"] Lemma collect_all_counterexample :
  (filter
     (resolves (with_hips ["11.4"; "11.4.2"; "10.2"]) HKLM "carisbatch.exe"
        "HIPS" "bin")
     ["11.4"; "11.4.2"; "10.2"] = ["11.4"; "11.4.2"; "10.2"] /\
   caris_command_finder (with_hips ["11.4"; "11.4.2"; "10.2"])
     "carisbatch.exe" ["11.4"; "11.4.2"; "10.2"] "HIPS" true "bin" =
     Raise (ValueError "could not convert string to float: '11.4.2'")) /\
  (NoDup ["11.4"; "11.40"] /\
   caris_command_finder
     (host (Success HKLM)
        [(hips_key "11.4", hips_dir "11.4");
         (hips_key "11.40", hips_dir "11.4")]
        [hips_exe "11.4"])
     "carisbatch.exe" ["11.4"; "11.40"] "HIPS" true "bin" =
     Ok (PList
           [PList [PStr (hips_exe "11.4"); PFloat (Prim2SF 11.4%float)];
            PList [PStr (hips_exe "11.4"); PFloat (Prim2SF 11.4%float)]])).
Proof.
  split; split; try (vm_compute; reflexivity).
  repeat constructor; simpl; intuition discriminate.
Qed.

Lemma unparsable_version_raises_witness :
  caris_command_finder (with_hips ["11.4"; "11.4.1"]) "carisbatch.exe"
    ["12.0"; "11.4"; "11.4.1"; "10.2"] "HIPS" true "bin" =
    Raise (ValueError "could not convert string to float: '11.4.1'") /\
  exists msg,
    ValueError "could not convert string to float: '11.4.1'" =
    ValueError msg.
Proof.
  refine (unparsable_version_raises (with_hips ["11.4"; "11.4.1"]) HKLM
            eq_refl "carisbatch.exe" "HIPS" "bin" true ["12.0"; "11.4"]
            ["10.2"] "11.4.1" (hips_exe "11.4.1")
            (ValueError "could not convert string to float: '11.4.1'")
            _ _ _).
  - constructor; [now left|].
    constructor; [|constructor].
    right. split; [reflexivity|]. eexists. vm_compute. reflexivity.
  - reflexivity.
  - vm_compute. reflexivity.
Defined.

(** 11.4.1 resolves and does not parse, but first-match mode returns the
    match of 11.4, which stands before it. *)
#[warnings="-inexact-float"] Lemma unparsable_version_counterexample :
  In "11.4.1" ["11.4"; "11.4.1"] /\
  resolves (with_hips ["11.4"; "11.4.1"]) HKLM "carisbatch.exe" "HIPS" "bin"
    "11.4.1" = true /\
  PyFloat.parse "11.4.1" = None /\
  caris_command_finder (with_hips ["11.4"; "11.4.1"]) "carisbatch.exe"
    ["11.4"; "11.4.1"] "HIPS" false "bin" =
    Ok (PList [PStr (hips_exe "11.4"); PFloat (Prim2SF 11.4%float)]).
Proof.
  split; [right; now left|]. repeat split; vm_compute; reflexivity.
Qed.

#[warnings="-inexact-float"] Lemma returned_paths_passed_existence_check_witness :
  PList [PStr (hips_exe "11.4"); PFloat (Prim2SF 11.4%float)] =
    PTuple [PStr ""; PStr ""] \/
  checked_match partial
    (PList [PStr (hips_exe "11.4"); PFloat (Prim2SF 11.4%float)]).
Proof.
  apply (returned_paths_passed_existence_check partial "carisbatch.exe" "HIPS"
           "bin" ["12.0"; "11.4"] false).
  vm_compute. reflexivity.
Defined.

Lemma store_failures_propagate_or_skip_witness :
  caris_command_finder unreachable "carisbatch.exe" ["12.0"; "11.4"] "HIPS"
    true "bin" = Raise (WindowsError 5) /\
  caris_command_finder (with_hips ["11.4"]) "carisbatch.exe"
    ["12.0"; "11.4"] "HIPS" false "bin" =
  caris_command_finder (with_hips ["11.4"]) "carisbatch.exe"
    ["11.4"] "HIPS" false "bin".
Proof.
  split.
  - apply (proj1 (store_failures_propagate_or_skip unreachable
                    "carisbatch.exe" "HIPS" "bin" true) 5%Z).
    reflexivity.
  - apply (proj2 (store_failures_propagate_or_skip (with_hips ["11.4"])
                    "carisbatch.exe" "HIPS" "bin" false)
             HKLM [] "12.0" ["11.4"]).
    + reflexivity.
    + vm_compute. exact I.
Defined.

Lemma family_wrappers_raise_iff_empty_witness :
  (command_finder_hips partial false =
   caris_command_finder partial "carisbatch.exe" HIPS_VERSIONS HIPS_NAME
     false "bin" /\
   exists x,
     caris_command_finder partial "carisbatch.exe" HIPS_VERSIONS HIPS_NAME
       false "bin" = Ok x /\ empty_result x = false) /\
  (exists msg,
     command_finder_base bare true = Raise (Exception msg) /\
     contains BASE_EDITOR_NAME msg = true).
Proof.
  split.
  - apply (proj2 (proj2 (proj1 (family_wrappers_raise_iff_empty partial
                                  false))) HKLM eq_refl).
    apply Exists_cons_tl, Exists_cons_hd. reflexivity.
  - apply (proj1 (proj2 (family_wrappers_raise_iff_empty bare true))
             (PList [])); reflexivity.
Defined.

#[warnings="-inexact-float"] Lemma version_is_parsed_float_witness :
  caris_command_finder (with_hips ["11.4"; "10.2"]) "carisbatch.exe"
    ["12.0"; "11.4"; "10.2"] "HIPS" false "bin" =
    Ok (PList [PStr (hips_exe "11.4"); PFloat (Prim2SF 11.4%float)]).
Proof.
  refine (proj1 (proj2 (proj2 (proj2 (proj2 version_is_parsed_float)))
                   (with_hips ["11.4"; "10.2"]) HKLM "carisbatch.exe" "HIPS"
                   "bin" eq_refl)
            ["12.0"] "11.4" ["10.2"] (hips_exe "11.4") _ _ _ _).
  - repeat constructor.
  - reflexivity.
  - vm_compute. reflexivity.
Defined.

(** The general form of the defect behind C4, at the failing input. *)
Lemma get_hips_command_from_version_not_found_witness :
  get_hips_command_from_version bare (PStr "11.4") =
    Raise (Exception
             "No Batch Engine found...is CARIS HIPS and SIPS  installed?").
Proof.
  apply (get_hips_command_from_version_not_found bare HKLM (PStr "11.4")).
  - reflexivity.
  - reflexivity.
Defined.

End Instances.

(** * Further properties of the module *)

(** ** The loop as a function of its list *)

Section LoopAlgebra.

Variable h : Host.
Variable regHKLM : HKEY h.
Variables exe_name app_key subdir : string.

Local Abbreviation probe' := (probe h regHKLM exe_name app_key subdir).
Local Abbreviation resolves' := (resolves h regHKLM exe_name app_key subdir).
Local Abbreviation for_loop' := (for_loop h regHKLM exe_name app_key).

(** The loop only appends: what it does to a list of matches is what it does
    to the empty list, put behind that list. *)
Lemma for_loop_acc (g : bool) (accepted : list string) :
  forall versions,
    for_loop' g subdir accepted versions =
      (ms <- for_loop' g subdir accepted [] ;; Ok (versions ++ ms)).
Proof.
  induction accepted as [|v accepted IH]; intros versions; simpl.
  - now rewrite app_nil_r.
  - destruct (probe' v) as [path|] eqn:E.
    + rewrite !(iteration_resolved _ _ _ _ _ g v path _ E).
      destruct (float_cases v) as [[vers ->] | ->]; simpl; [|reflexivity].
      destruct g; [|reflexivity].
      rewrite (IH (versions ++ [PList [PStr path; PFloat vers]])).
      rewrite (IH [PList [PStr path; PFloat vers]]).
      destruct (for_loop' true subdir accepted []) as [ms|e]; simpl;
        [|reflexivity].
      now rewrite <- app_assoc.
    + rewrite !(iteration_unresolved _ _ _ _ _ g v _ E). simpl. apply IH.
Qed.

(** In collect-all mode the loop over a concatenation is the loop over the
    first list followed by the loop over the second. *)
Lemma for_loop_app_collect (l1 l2 : list string) :
  forall versions,
    for_loop' true subdir (l1 ++ l2) versions =
      (vs <- for_loop' true subdir l1 versions ;;
       for_loop' true subdir l2 vs).
Proof.
  induction l1 as [|v l1 IH]; intros versions; simpl; [reflexivity|].
  destruct (probe' v) as [path|] eqn:E.
  - rewrite (iteration_resolved _ _ _ _ _ true v path _ E).
    destruct (float_cases v) as [[vers ->] | ->]; simpl; [|reflexivity].
    apply IH.
  - rewrite (iteration_unresolved _ _ _ _ _ true v _ E). simpl. apply IH.
Qed.

(** A list has no version that resolves, or an earliest one. *)
Lemma split_first_resolving (l : list string) :
  Forall (fun u => probe' u = None) l \/
  exists pre v post path,
    l = pre ++ v :: post /\
    Forall (fun u => probe' u = None) pre /\
    probe' v = Some path.
Proof.
  induction l as [|u l IH]; [left; constructor|].
  destruct (probe' u) as [path|] eqn:E.
  - right. exists [], u, l, path. repeat split; [constructor | assumption].
  - destruct IH as [Hnone | [pre [v [post [path [-> [Hpre Hv]]]]]]].
    + left. now constructor.
    + right. exists (u :: pre), v, post, path.
      repeat split; [now constructor | assumption].
Qed.

(** Collect-all mode gets through the list only when every version that
    resolves parses. *)
Lemma for_loop_collect_parses (accepted : list string) :
  forall versions vs,
    for_loop' true subdir accepted versions = Ok vs ->
    Forall (fun v => resolves' v = true -> exists vers, float v = Ok vers)
      accepted.
Proof.
  induction accepted as [|v accepted IH]; intros versions vs; simpl;
    [constructor|].
  unfold resolves. destruct (probe' v) as [path|] eqn:E.
  - rewrite (iteration_resolved _ _ _ _ _ true v path _ E).
    destruct (float_cases v) as [[vers Hf] | Hf]; rewrite Hf; simpl;
      [|discriminate].
    intros Hl. constructor; [|now apply IH in Hl].
    intros _. now exists vers.
  - rewrite (iteration_unresolved _ _ _ _ _ true v _ E). simpl.
    intros Hl. constructor; [|now apply IH in Hl].
    rewrite E. discriminate.
Qed.

End LoopAlgebra.

(** ** The resolver as a function of its list *)

Section ResolverAlgebra.

Variable h : Host.
Variables exe_name app_key subdir : string.

Local Abbreviation unresolved regHKLM :=
  (fun u => probe h regHKLM exe_name app_key subdir u = None).

(** The outcome of first-match mode, by what the list holds. *)
Lemma first_match_cases (regHKLM : HKEY h) (accepted : list string) :
  ConnectRegistry h = Success regHKLM ->
  (Forall (unresolved regHKLM) accepted /\
   caris_command_finder h exe_name accepted app_key false subdir =
     Ok (PTuple [PStr ""; PStr ""])) \/
  (exists pre v post path,
     accepted = pre ++ v :: post /\
     Forall (unresolved regHKLM) pre /\
     probe h regHKLM exe_name app_key subdir v = Some path /\
     caris_command_finder h exe_name accepted app_key false subdir =
       (vers <- float v ;; Ok (PList [PStr path; PFloat vers]))).
Proof.
  intros Hc.
  destruct (split_first_resolving h regHKLM exe_name app_key subdir accepted)
    as [Hnone | [pre [v [post [path [-> [Hpre Hv]]]]]]].
  - left. split; [assumption|].
    rewrite (caris_command_finder_connected _ _ _ _ _ _ _ Hc).
    now rewrite for_loop_unresolved.
  - right. exists pre, v, post, path. repeat split; try assumption.
    rewrite (caris_command_finder_connected _ _ _ _ _ _ _ Hc).
    rewrite (for_loop_first _ _ _ _ _ false pre post v path [] Hpre Hv).
    destruct (float_cases v) as [[vers ->] | ->]; reflexivity.
Qed.

(** When collect-all mode returns, first-match mode returns the head of its
    list, or the placeholder pair for the empty list. *)
Lemma first_match_of_collect_all (accepted : list string) (ms : list pyval) :
  caris_command_finder h exe_name accepted app_key true subdir =
    Ok (PList ms) ->
  caris_command_finder h exe_name accepted app_key false subdir =
    Ok (match ms with
        | m :: _ => m
        | [] => PTuple [PStr ""; PStr ""]
        end).
Proof.
  destruct (ConnectRegistry h) as [regHKLM|c] eqn:Hc.
  - rewrite !(caris_command_finder_connected _ _ _ _ _ _ _ Hc).
    destruct (split_first_resolving h regHKLM exe_name app_key subdir
                accepted) as [Hnone | [pre [v [post [path [-> [Hpre Hv]]]]]]].
    + rewrite !for_loop_unresolved by assumption. simpl. now intros [= <-].
    + rewrite !(for_loop_first _ _ _ _ _ _ pre post v path [] Hpre Hv).
      destruct (float_cases v) as [[vers ->] | ->]; simpl; [|discriminate].
      rewrite (for_loop_acc h regHKLM exe_name app_key subdir true post).
      destruct (for_loop h regHKLM exe_name app_key true subdir post [])
        as [r|e]; simpl; [|discriminate].
      now intros [= <-].
  - rewrite !(caris_command_finder_unreachable _ _ _ _ c _ _ Hc).
    discriminate.
Qed.

(** X1.  The resolver returns one of its two empty results, the pair of
    empty strings in first-match mode and the empty list in collect-all
    mode, exactly when the registry was reached and no version of the list
    resolves. *)
Theorem empty_result_iff_nothing_resolves (accepted : list string) :
  (caris_command_finder h exe_name accepted app_key false subdir =
    Ok (PTuple [PStr ""; PStr ""]) <->
   exists regHKLM, ConnectRegistry h = Success regHKLM /\
                   Forall (unresolved regHKLM) accepted) /\
  (caris_command_finder h exe_name accepted app_key true subdir =
    Ok (PList []) <->
   exists regHKLM, ConnectRegistry h = Success regHKLM /\
                   Forall (unresolved regHKLM) accepted).
Proof.
  assert (forall regHKLM, ConnectRegistry h = Success regHKLM ->
            Forall (unresolved regHKLM) accepted ->
            forall g, for_loop h regHKLM exe_name app_key g subdir accepted []
                      = Ok []) as Hempty
    by (intros; now apply for_loop_unresolved).
  assert (caris_command_finder h exe_name accepted app_key false subdir =
    Ok (PTuple [PStr ""; PStr ""]) ->
          exists regHKLM, ConnectRegistry h = Success regHKLM /\
                          Forall (unresolved regHKLM) accepted) as Hfirst.
  { destruct (ConnectRegistry h) as [regHKLM|c] eqn:Hc.
    - destruct (first_match_cases regHKLM accepted Hc)
        as [[Hnone _] | [pre [v [post [path [_ [_ [_ ->]]]]]]]].
      + intros _. now exists regHKLM.
      + destruct (float_cases v) as [[vers ->] | ->]; discriminate.
    - rewrite (caris_command_finder_unreachable _ _ _ _ c _ _ Hc).
      discriminate. }
  split; split.
  - exact Hfirst.
  - intros [regHKLM [Hc Hnone]].
    rewrite (caris_command_finder_connected _ _ _ _ _ _ _ Hc).
    now rewrite (Hempty regHKLM Hc Hnone).
  - intros Hall. apply Hfirst.
    now rewrite (first_match_of_collect_all accepted [] Hall).
  - intros [regHKLM [Hc Hnone]].
    rewrite (caris_command_finder_connected _ _ _ _ _ _ _ Hc).
    now rewrite (Hempty regHKLM Hc Hnone).
Qed.

(** X2.  Whenever collect-all mode returns a list, first-match mode on the
    same arguments returns the first element of that list, and the pair of
    empty strings when the list is empty. *)
Theorem first_match_is_head_of_collect_all
    (accepted : list string) (ms : list pyval) :
  caris_command_finder h exe_name accepted app_key true subdir =
    Ok (PList ms) ->
  caris_command_finder h exe_name accepted app_key false subdir =
    Ok (match ms with
        | m :: _ => m
        | [] => PTuple [PStr ""; PStr ""]
        end).
Proof. apply first_match_of_collect_all. Qed.

(** X3.  Collect-all mode distributes over concatenation of the version
    lists: the result for [l1 ++ l2] is the result for [l1] followed by the
    result for [l2], and an exception of either part is the exception of the
    whole, that of [l1] first. *)
Theorem collect_all_app (l1 l2 : list string) :
  (forall ms1 ms2,
      caris_command_finder h exe_name l1 app_key true subdir = Ok (PList ms1) ->
      caris_command_finder h exe_name l2 app_key true subdir = Ok (PList ms2) ->
      caris_command_finder h exe_name (l1 ++ l2) app_key true subdir =
        Ok (PList (ms1 ++ ms2))) /\
  (forall e,
      caris_command_finder h exe_name l1 app_key true subdir = Raise e ->
      caris_command_finder h exe_name (l1 ++ l2) app_key true subdir =
        Raise e) /\
  (forall ms1 e,
      caris_command_finder h exe_name l1 app_key true subdir = Ok (PList ms1) ->
      caris_command_finder h exe_name l2 app_key true subdir = Raise e ->
      caris_command_finder h exe_name (l1 ++ l2) app_key true subdir = Raise e).
Proof.
  destruct (ConnectRegistry h) as [regHKLM|c] eqn:Hc.
  - rewrite !(caris_command_finder_connected _ _ _ _ _ _ _ Hc).
    rewrite for_loop_app_collect.
    destruct (for_loop h regHKLM exe_name app_key true subdir l1 [])
      as [vs1|e1]; simpl.
    + rewrite (for_loop_acc h regHKLM exe_name app_key subdir true l2 vs1).
      destruct (for_loop h regHKLM exe_name app_key true subdir l2 [])
        as [vs2|e2]; simpl.
      * repeat split; try discriminate. now intros ms1 ms2 [= <-] [= <-].
      * repeat split; try discriminate. now intros ms1 e _ [= <-].
    + repeat split; try discriminate. now intros e [= <-].
  - rewrite !(caris_command_finder_unreachable _ _ _ _ c _ _ Hc).
    repeat split; try discriminate. now intros e [= <-].
Qed.

(** X4.  First-match mode over a concatenation falls back from [l1] to
    [l2]: when [l1] alone gives the pair of empty strings, the outcome is
    that of [l2]; in every other case it is the outcome of [l1], whatever
    [l2] holds. *)
Theorem first_match_app (l1 l2 : list string) :
  (caris_command_finder h exe_name l1 app_key false subdir =
    Ok (PTuple [PStr ""; PStr ""]) ->
   caris_command_finder h exe_name (l1 ++ l2) app_key false subdir =
     caris_command_finder h exe_name l2 app_key false subdir) /\
  (caris_command_finder h exe_name l1 app_key false subdir <>
    Ok (PTuple [PStr ""; PStr ""]) ->
   caris_command_finder h exe_name (l1 ++ l2) app_key false subdir =
     caris_command_finder h exe_name l1 app_key false subdir).
Proof.
  destruct (ConnectRegistry h) as [regHKLM|c] eqn:Hc.
  - destruct (first_match_cases regHKLM l1 Hc)
      as [[Hnone Hr] | [pre [v [post [path [-> [Hpre [Hv Hr]]]]]]]];
      rewrite Hr.
    + split; [intros _ | intros Hneq; now elim Hneq].
      rewrite !(caris_command_finder_connected _ _ _ _ _ _ _ Hc).
      now rewrite for_loop_skip_prefix.
    + split.
      * destruct (float_cases v) as [[vers ->] | ->]; discriminate.
      * intros _. rewrite <- app_assoc, <- app_comm_cons.
        rewrite (caris_command_finder_connected _ _ _ _ _ _ _ Hc).
        rewrite (for_loop_first _ _ _ _ _ false pre (post ++ l2) v path []
                   Hpre Hv).
        destruct (float_cases v) as [[vers ->] | ->]; reflexivity.
  - rewrite !(caris_command_finder_unreachable _ _ _ _ c _ _ Hc).
    split; [discriminate | reflexivity].
Qed.

(** X5.  A version whose [install_dir] is registered but whose executable
    is not on disk is skipped like an unregistered one: removing it from the
    list changes nothing, in either mode. *)
Theorem missing_executable_is_skipped
    (regHKLM kBDB : HKEY h) (p2hipsinst : string)
    (pre post : list string) (v : string) (g : bool) :
  ConnectRegistry h = Success regHKLM ->
  OpenKey h regHKLM (version_key app_key v) = Success kBDB ->
  QueryValueEx h kBDB "install_dir" = Success p2hipsinst ->
  os_path_exists h (os_path_join h p2hipsinst subdir exe_name) = false ->
  caris_command_finder h exe_name (pre ++ v :: post) app_key g subdir =
    caris_command_finder h exe_name (pre ++ post) app_key g subdir.
Proof.
  intros Hc Hk Hq He.
  rewrite !(caris_command_finder_connected _ _ _ _ _ _ _ Hc).
  rewrite (for_loop_skip h regHKLM exe_name app_key subdir g pre post v);
    [reflexivity|].
  unfold probe. now rewrite Hk, Hq, He.
Qed.

(** What collect-all mode returns holds the matches of the resolvable
    versions, in their order. *)
Lemma collect_all_matches (regHKLM : HKEY h) (accepted : list string)
    (ms : list pyval) :
  ConnectRegistry h = Success regHKLM ->
  caris_command_finder h exe_name accepted app_key true subdir =
    Ok (PList ms) ->
  Forall2 (match_of h regHKLM exe_name app_key subdir)
    (filter (resolves h regHKLM exe_name app_key subdir) accepted) ms.
Proof.
  intros Hc.
  rewrite (caris_command_finder_connected _ _ _ _ _ _ _ Hc).
  destruct (for_loop h regHKLM exe_name app_key true subdir accepted [])
    as [vs|e] eqn:El; simpl; [|discriminate].
  intros [= <-].
  destruct (for_loop_collect h regHKLM exe_name app_key subdir accepted
              (for_loop_collect_parses _ _ _ _ _ _ _ _ El) [])
    as [ms [El' HF]].
  rewrite El in El'. now injection El' as ->.
Qed.

(** X6.  Once connected, collect-all mode returns a list exactly when every
    version that resolves parses as a float, and the list it returns holds
    the matches of the resolvable versions, one for each and in their
    order. *)
Theorem collect_all_returns_iff_resolvable_parse
    (regHKLM : HKEY h) (accepted : list string) :
  ConnectRegistry h = Success regHKLM ->
  ((exists ms, caris_command_finder h exe_name accepted app_key true subdir =
    Ok (PList ms)) <->
   Forall (fun v => resolves h regHKLM exe_name app_key subdir v = true ->
                    exists vers, float v = Ok vers) accepted) /\
  (forall ms,
      caris_command_finder h exe_name accepted app_key true subdir =
        Ok (PList ms) ->
      Forall2 (match_of h regHKLM exe_name app_key subdir)
        (filter (resolves h regHKLM exe_name app_key subdir) accepted) ms).
Proof.
  intros Hc. split; [split|].
  - rewrite (caris_command_finder_connected _ _ _ _ _ _ _ Hc).
    intros [ms Hr].
    destruct (for_loop h regHKLM exe_name app_key true subdir accepted [])
      as [vs|e] eqn:El; [|discriminate].
    now apply for_loop_collect_parses in El.
  - rewrite (caris_command_finder_connected _ _ _ _ _ _ _ Hc).
    intros Hall.
    destruct (for_loop_collect h regHKLM exe_name app_key subdir accepted
                Hall []) as [ms [-> _]].
    now exists ms.
  - intros ms. now apply collect_all_matches.
Qed.

End ResolverAlgebra.

(** ** The wrappers *)

Lemma hips_versions_parse :
  Forall (fun v => exists vers, float v = Ok vers) HIPS_VERSIONS.
Proof. repeat constructor; eexists; vm_compute; reflexivity. Qed.

Lemma base_editor_versions_parse :
  Forall (fun v => exists vers, float v = Ok vers) BASE_EDITOR_VERSIONS.
Proof. repeat constructor; eexists; vm_compute; reflexivity. Qed.

Section FamilyWrapper.

Variable h : Host.
Variables name msg : string.
Variable accepted : list string.
Hypothesis accepted_parse :
  Forall (fun v => exists vers, float v = Ok vers) accepted.

Local Abbreviation finder g :=
  (caris_command_finder h "carisbatch.exe" accepted name g "bin").
Local Abbreviation wrapper g :=
  (versions <- caris_command_finder h "carisbatch.exe" accepted name g
                 "bin" ;;
   c <- nothing_found versions ;;
   if c then Raise (Exception msg) else Ok versions).

(** The body shared by the two family wrappers, by the resolver's outcome. *)
Lemma family_wrapper_body (g : bool) :
  wrapper g =
    match finder g with
    | Ok x => if empty_result x then Raise (Exception msg) else Ok x
    | Raise e => Raise e
    end.
Proof.
  destruct (finder g) as [x|e] eqn:E; simpl; [|reflexivity].
  now rewrite (nothing_found_checked h g x
                 (caris_command_finder_checked _ _ _ _ _ _ _ E)).
Qed.

(** With versions that all parse, the resolver raises only when the registry
    cannot be reached. *)
Lemma family_finder_raises (g : bool) (e : exn) :
  finder g = Raise e ->
  exists c, ConnectRegistry h = Failure c /\ e = WindowsError c.
Proof.
  destruct (ConnectRegistry h) as [regHKLM|c] eqn:Hc.
  - rewrite (caris_command_finder_connected _ _ _ _ _ _ _ Hc).
    destruct (for_loop_returns h regHKLM "carisbatch.exe" name "bin" g
                accepted accepted_parse []) as [ms [-> _]].
    simpl. destruct g; [discriminate|]. destruct ms; discriminate.
  - rewrite (caris_command_finder_unreachable _ _ _ _ c _ _ Hc).
    intros [= <-]. now exists c.
Qed.

Lemma family_wrapper_raises (g : bool) (e : exn) :
  wrapper g = Raise e ->
  (exists c, ConnectRegistry h = Failure c /\ e = WindowsError c) \/
  e = Exception msg.
Proof.
  rewrite family_wrapper_body.
  destruct (finder g) as [x|e'] eqn:E.
  - destruct (empty_result x); [|discriminate]. intros [= <-]. now right.
  - intros [= <-]. left. now apply (family_finder_raises g).
Qed.


Lemma family_wrapper_modes (m : pyval) :
  wrapper false = Ok m <-> exists ms, wrapper true = Ok (PList (m :: ms)).
Proof.
  rewrite !family_wrapper_body. split.
  - destruct (finder false) as [x|e] eqn:Ef; [|discriminate].
    destruct (empty_result x) eqn:Ee; [discriminate|]. intros [= ->].
    destruct (ConnectRegistry h) as [regHKLM|c] eqn:Hc.
    + destruct (first_match_cases h "carisbatch.exe" name "bin" regHKLM
                  accepted Hc)
        as [[_ Hr] | [pre [v [post [path [Heq [Hpre [Hv Hr]]]]]]]];
        rewrite Hr in Ef.
      * injection Ef as <-. discriminate Ee.
      * destruct (float v) as [vers|e] eqn:Hf; [|discriminate].
        injection Ef as <-.
        assert (Forall (fun u => exists vers, float u = Ok vers) post)
          as Hpost.
        { rewrite Heq in accepted_parse.
          apply Forall_app in accepted_parse as [_ Hcons].
          now inversion Hcons. }
        destruct (for_loop_returns h regHKLM "carisbatch.exe" name "bin"
                    true post Hpost [PList [PStr path; PFloat vers]])
          as [ms [El _]].
        exists ms.
        rewrite (caris_command_finder_connected _ _ _ _ _ _ _ Hc), Heq.
        rewrite (for_loop_first _ _ _ _ _ true pre post v path [] Hpre Hv).
        rewrite Hf. simpl. now rewrite El.
    + rewrite (caris_command_finder_unreachable _ _ _ _ c _ _ Hc) in Ef.
      discriminate.
  - intros [ms Hall].
    destruct (finder true) as [x|e] eqn:Et; [|discriminate].
    destruct (empty_result x); [discriminate|]. injection Hall as ->.
    rewrite (first_match_of_collect_all _ _ _ _ _ _ Et).
    destruct (caris_command_finder_checked _ _ _ _ _ _ _ Et)
      as [ms' [[= <-] Hms]].
    inversion Hms as [|? ? [path [vers [-> _]]] _]. reflexivity.
Qed.

End FamilyWrapper.

(** X7.  The family wrappers and [get_all_hips_versions] raise nothing but
    the [WindowsError] of a failed connection and their own domain error; in
    particular the [ValueError] of the resolver never comes out of them. *)
Theorem family_wrappers_raise_only_their_errors (h : Host) (e : exn) :
  (forall g, command_finder_hips h g = Raise e ->
     (exists c, ConnectRegistry h = Failure c /\ e = WindowsError c) \/
     e = Exception
           "No Batch Engine found...is CARIS HIPS and SIPS installed?") /\
  (forall g, command_finder_base h g = Raise e ->
     (exists c, ConnectRegistry h = Failure c /\ e = WindowsError c) \/
     e = Exception
           "No Batch Engine found...is CARIS BASE Editor installed?") /\
  (get_all_hips_versions h = Raise e ->
     (exists c, ConnectRegistry h = Failure c /\ e = WindowsError c) \/
     e = Exception
           "No Batch Engine found...is CARIS HIPS and SIPS installed?").
Proof.
  split; [|split].
  - intros g. apply family_wrapper_raises, hips_versions_parse.
  - intros g. apply family_wrapper_raises, base_editor_versions_parse.
  - unfold get_all_hips_versions.
    destruct (command_finder_hips h true) as [x|e'] eqn:E; [discriminate|].
    intros [= <-]. revert E.
    apply family_wrapper_raises, hips_versions_parse.
Qed.

(** X8.  When the registry cannot be reached, every entry point of the
    module raises the [WindowsError] of the connection. *)
Theorem connection_failure_reaches_every_caller (h : Host) (c : Z) :
  ConnectRegistry h = Failure c ->
  (forall vers, get_hips_command_from_version h vers = Raise (WindowsError c))
  /\ get_all_hips_versions h = Raise (WindowsError c)
  /\ (forall g, command_finder_hips h g = Raise (WindowsError c))
  /\ (forall g, command_finder_base h g = Raise (WindowsError c)).
Proof.
  intros Hc.
  unfold get_hips_command_from_version, get_all_hips_versions,
    command_finder_hips, command_finder_base.
  repeat split; intros;
    now rewrite (caris_command_finder_unreachable _ _ _ _ c _ _ Hc).
Qed.

(** X9.  What [get_all_hips_versions] returns is what
    [command_finder_hips(True)] returns: a list that is never empty, of at
    most eight matches, each with a path that passed the existence check. *)
Theorem get_all_hips_versions_nonempty (h : Host) (r : pyval) :
  get_all_hips_versions h = Ok r ->
  command_finder_hips h true = Ok r /\
  exists m ms,
    r = PList (m :: ms) /\
    Forall (checked_match h) (m :: ms) /\
    (List.length (m :: ms) <= 8)%nat.
Proof.
  unfold get_all_hips_versions.
  destruct (command_finder_hips h true) as [x|e] eqn:E; [|discriminate].
  intros [= <-]. split; [reflexivity|].
  unfold command_finder_hips in E.
  rewrite (family_wrapper_body h HIPS_NAME _ HIPS_VERSIONS true) in E.
  destruct (caris_command_finder h "carisbatch.exe" HIPS_VERSIONS HIPS_NAME
              true "bin") as [y|e] eqn:Ef; [|discriminate].
  destruct (empty_result y) eqn:Ee; [discriminate|]. injection E as ->.
  destruct (caris_command_finder_checked _ _ _ _ _ _ _ Ef)
    as [ms [-> Hms]].
  destruct ms as [|m ms]; [discriminate Ee|].
  exists m, ms. repeat split; [assumption|].
  destruct (ConnectRegistry h) as [regHKLM|c] eqn:Hc.
  - pose proof (collect_all_matches h "carisbatch.exe" HIPS_NAME "bin"
                  regHKLM HIPS_VERSIONS (m :: ms) Hc Ef) as HF.
    rewrite <- (Forall2_length HF).
    apply (filter_length_le _ HIPS_VERSIONS).
  - rewrite (caris_command_finder_unreachable _ _ _ _ c _ _ Hc) in Ef.
    discriminate.
Qed.


(** X11.  The two modes of a family wrapper agree: first-match mode returns
    a match exactly when collect-all mode returns a list that starts with
    that match. *)
Theorem family_modes_agree (h : Host) (m : pyval) :
  (command_finder_hips h false = Ok m <->
   exists ms, command_finder_hips h true = Ok (PList (m :: ms))) /\
  (command_finder_base h false = Ok m <->
   exists ms, command_finder_base h true = Ok (PList (m :: ms))).
Proof.
  split.
  - apply (family_wrapper_modes h HIPS_NAME _ HIPS_VERSIONS
             hips_versions_parse).
  - apply (family_wrapper_modes h BASE_EDITOR_NAME _ BASE_EDITOR_VERSIONS
             base_editor_versions_parse).
Qed.

(** The exact-version lookup of a version that resolves. *)
Lemma exact_version_lookup (h : Host) (regHKLM : HKEY h) (vers : pyval)
    (path : string) :
  ConnectRegistry h = Success regHKLM ->
  probe h regHKLM "carisbatch.exe" "HIPS" "bin" (py_str h vers) = Some path ->
  get_hips_command_from_version h vers =
    (_ <- float (py_str h vers) ;; Ok (PStr path)).
Proof.
  intros Hc Hv. unfold get_hips_command_from_version.
  rewrite (caris_command_finder_connected _ _ _ _ _ _ _ Hc).
  pose proof (for_loop_first _ _ _ _ _ false [] [] (py_str h vers) path []
                (Forall_nil _) Hv) as Hl.
  simpl app in Hl. rewrite Hl.
  destruct (float_cases (py_str h vers)) as [[f ->] | ->]; simpl;
    [|reflexivity].
  apply probe_exists in Hv. destruct path; [discriminate Hv | reflexivity].
Qed.

(** X12.  For a requested version that resolves,
    [get_hips_command_from_version] looks up [str(vers)] and returns the
    path of the executable alone, without the version; when [str(vers)] does
    not parse as a float it raises the [ValueError] of [float], not the
    domain error. *)
Theorem exact_version_found (h : Host) (regHKLM : HKEY h) (vers : pyval)
    (path : string) :
  ConnectRegistry h = Success regHKLM ->
  probe h regHKLM "carisbatch.exe" "HIPS" "bin" (py_str h vers) = Some path ->
  get_hips_command_from_version h vers =
    (_ <- float (py_str h vers) ;; Ok (PStr path)).
Proof. apply exact_version_lookup. Qed.

(** X13.  [get_hips_command_from_version] returns nothing but a non-empty
    path that passed the existence check, and raises nothing but the
    [WindowsError] of a failed connection, the exception of [float] on the
    requested version, a [ValueError], and its domain error. *)
Theorem exact_version_outcomes (h : Host) (vers : pyval) :
  (forall r, get_hips_command_from_version h vers = Ok r ->
     exists path, r = PStr path /\ path <> "" /\
                  os_path_exists h path = true) /\
  (forall e, get_hips_command_from_version h vers = Raise e ->
     (exists c, ConnectRegistry h = Failure c /\ e = WindowsError c) \/
     (float (py_str h vers) = Raise e /\ exists msg, e = ValueError msg) \/
     e = Exception
           "No Batch Engine found...is CARIS HIPS and SIPS  installed?").
Proof.
  destruct (ConnectRegistry h) as [regHKLM|c] eqn:Hc.
  - destruct (probe h regHKLM "carisbatch.exe" "HIPS" "bin" (py_str h vers))
      as [path|] eqn:Hv.
    + rewrite (exact_version_lookup h regHKLM vers path Hc Hv).
      apply probe_exists in Hv.
      destruct (float_cases (py_str h vers)) as [[f ->] | ->]; simpl.
      * split; [|discriminate]. intros r [= <-]. exists path.
        repeat split; [|assumption]. intros ->. discriminate Hv.
      * split; [discriminate|]. intros e [= <-]. right. left.
        split; [reflexivity | eauto].
    + rewrite (get_hips_command_from_version_not_found h regHKLM vers Hc Hv).
      split; [discriminate|]. intros e [= <-]. right. now right.
  - unfold get_hips_command_from_version.
    rewrite (caris_command_finder_unreachable _ _ _ _ c _ _ Hc). simpl.
    split; [discriminate|]. intros e [= <-]. left. now exists c.
Qed.

(** X14.  The resolver does not deduplicate: on a version list written
    twice, collect-all mode returns its matches twice. *)
Theorem collect_all_keeps_repetitions
    (h : Host) (exe_name app_key subdir : string)
    (accepted : list string) (ms : list pyval) :
  caris_command_finder h exe_name accepted app_key true subdir =
    Ok (PList ms) ->
  caris_command_finder h exe_name (accepted ++ accepted) app_key true subdir =
    Ok (PList (ms ++ ms)).
Proof.
  destruct (ConnectRegistry h) as [regHKLM|c] eqn:Hc.
  - rewrite !(caris_command_finder_connected _ _ _ _ _ _ _ Hc).
    rewrite for_loop_app_collect.
    destruct (for_loop h regHKLM exe_name app_key true subdir accepted [])
      as [vs|e] eqn:El; simpl; [|discriminate].
    intros [= <-].
    rewrite (for_loop_acc h regHKLM exe_name app_key subdir true accepted vs).
    now rewrite El.
  - rewrite !(caris_command_finder_unreachable _ _ _ _ c _ _ Hc).
    discriminate.
Qed.

Lemma Forall2_In_left {A B : Type} (R : A -> B -> Prop) (l : list A)
    (l' : list B) (x : A) :
  Forall2 R l l' -> In x l -> exists y, In y l' /\ R x y.
Proof.
  induction 1 as [|a b l l' Hab _ IH]; intros Hin; [destruct Hin|].
  destruct Hin as [-> | Hin].
  - exists b. split; [now left | assumption].
  - destruct (IH Hin) as [y [Hy HR]]. exists y. split; [now right | assumption].
Qed.

(** X15.  A hit of the exact-version lookup is listed by
    [get_all_hips_versions]: when [get_hips_command_from_version] returns a
    path for one of the hard-coded HIPS versions, [get_all_hips_versions]
    returns a list that holds that path, with the version parsed as a
    float. *)
Theorem exact_version_hit_is_listed (h : Host) (v path : string) :
  In v HIPS_VERSIONS ->
  get_hips_command_from_version h (PStr v) = Ok (PStr path) ->
  exists ms vers,
    get_all_hips_versions h = Ok (PList ms) /\
    float v = Ok vers /\
    In (PList [PStr path; PFloat vers]) ms.
Proof.
  intros Hin Hget.
  destruct (ConnectRegistry h) as [regHKLM|c] eqn:Hc.
  - assert (probe h regHKLM "carisbatch.exe" "HIPS" "bin" v = Some path)
      as Hv.
    { destruct (probe h regHKLM "carisbatch.exe" "HIPS" "bin" v)
        as [path'|] eqn:Hv.
      - rewrite (exact_version_lookup h regHKLM (PStr v) path' Hc Hv) in Hget.
        simpl in Hget.
        destruct (float v) as [f|e]; [|discriminate].
        now injection Hget as ->.
      - rewrite (get_hips_command_from_version_not_found h regHKLM (PStr v)
                   Hc Hv) in Hget.
        discriminate. }
    assert (Forall (fun u => resolves h regHKLM "carisbatch.exe" HIPS_NAME
                               "bin" u = true ->
                             exists vers, float u = Ok vers) HIPS_VERSIONS)
      as Hparse.
    { apply (Forall_impl _ (fun u H _ => H) hips_versions_parse). }
    destruct (for_loop_collect h regHKLM "carisbatch.exe" HIPS_NAME "bin"
                HIPS_VERSIONS Hparse []) as [ms [El HF]].
    assert (In v (filter (resolves h regHKLM "carisbatch.exe" HIPS_NAME "bin")
                    HIPS_VERSIONS)) as Hfilter.
    { apply filter_In. split; [assumption|].
      unfold resolves. change HIPS_NAME with "HIPS". now rewrite Hv. }
    destruct (Forall2_In_left _ _ _ _ HF Hfilter)
      as [m [Hm [path' [vers [Hv' [Hf ->]]]]]].
    change HIPS_NAME with "HIPS" in Hv'. rewrite Hv in Hv'.
    injection Hv' as <-.
    exists ms, vers. split; [|split; assumption].
    unfold get_all_hips_versions, command_finder_hips.
    rewrite (family_wrapper_body h HIPS_NAME _ HIPS_VERSIONS true).
    rewrite (caris_command_finder_connected _ _ _ _ _ _ _ Hc), El. simpl.
    destruct ms; [destruct Hm | reflexivity].
  - unfold get_hips_command_from_version in Hget.
    rewrite (caris_command_finder_unreachable _ _ _ _ c _ _ Hc) in Hget.
    discriminate.
Qed.

(** ** Further instances *)

Module MoreInstances.
Import Sample.
Local Set Warnings "-inexact-float".

Lemma empty_result_iff_nothing_resolves_witness :
  caris_command_finder bare "carisbatch.exe" ["12.0"; "11.4"] "HIPS" true
    "bin" = Ok (PList []).
Proof.
  apply (proj2 (proj2 (empty_result_iff_nothing_resolves bare
                         "carisbatch.exe" "HIPS" "bin" ["12.0"; "11.4"]))).
  exists HKLM. split; [reflexivity | repeat constructor].
Defined.

Lemma first_match_is_head_of_collect_all_witness :
  caris_command_finder (with_hips ["11.4"; "10.2"]) "carisbatch.exe"
    ["12.0"; "10.2"; "11.4"] "HIPS" false "bin" =
    Ok (PList [PStr (hips_exe "10.2"); PFloat (Prim2SF 10.2%float)]).
Proof.
  apply (first_match_is_head_of_collect_all (with_hips ["11.4"; "10.2"])
           "carisbatch.exe" "HIPS" "bin" ["12.0"; "10.2"; "11.4"]
           [PList [PStr (hips_exe "10.2"); PFloat (Prim2SF 10.2%float)];
            PList [PStr (hips_exe "11.4"); PFloat (Prim2SF 11.4%float)]]).
  vm_compute. reflexivity.
Defined.

Lemma collect_all_app_witness :
  caris_command_finder (with_hips ["11.4"; "10.2"]) "carisbatch.exe"
    (["12.0"; "11.4"] ++ ["10.2"]) "HIPS" true "bin" =
    Ok (PList
          ([PList [PStr (hips_exe "11.4"); PFloat (Prim2SF 11.4%float)]] ++
           [PList [PStr (hips_exe "10.2"); PFloat (Prim2SF 10.2%float)]])).
Proof.
  apply (proj1 (collect_all_app (with_hips ["11.4"; "10.2"])
                  "carisbatch.exe" "HIPS" "bin" ["12.0"; "11.4"] ["10.2"]));
    vm_compute; reflexivity.
Defined.

Lemma first_match_app_witness :
  caris_command_finder partial "carisbatch.exe" (["12.0"] ++ ["11.4"])
    "HIPS" false "bin" =
  caris_command_finder partial "carisbatch.exe" ["11.4"] "HIPS" false "bin".
Proof.
  apply (proj1 (first_match_app partial "carisbatch.exe" "HIPS" "bin"
                  ["12.0"] ["11.4"])).
  vm_compute. reflexivity.
Defined.

Lemma missing_executable_is_skipped_witness :
  os_path_exists partial (hips_exe "12.0") = false /\
  caris_command_finder partial "carisbatch.exe" ([] ++ "12.0" :: ["11.4"])
    "HIPS" true "bin" =
  caris_command_finder partial "carisbatch.exe" ([] ++ ["11.4"]) "HIPS" true
    "bin".
Proof.
  split; [reflexivity|].
  apply (missing_executable_is_skipped partial "carisbatch.exe" "HIPS" "bin"
           HKLM (hips_key "12.0") (hips_dir "12.0") [] ["11.4"] "12.0" true);
    reflexivity.
Defined.

Lemma collect_all_returns_iff_resolvable_parse_witness :
  exists ms,
    caris_command_finder partial "carisbatch.exe" ["12.0"; "11.4"] "HIPS"
      true "bin" = Ok (PList ms).
Proof.
  apply (proj2 (proj1 (collect_all_returns_iff_resolvable_parse partial
                         "carisbatch.exe" "HIPS" "bin" HKLM ["12.0"; "11.4"]
                         eq_refl))).
  repeat constructor; intros _; eexists; vm_compute; reflexivity.
Defined.

Lemma family_wrappers_raise_only_their_errors_witness :
  (exists c,
     ConnectRegistry bare = Failure c /\
     Exception "No Batch Engine found...is CARIS HIPS and SIPS installed?"
     = WindowsError c) \/
  Exception "No Batch Engine found...is CARIS HIPS and SIPS installed?" =
  Exception "No Batch Engine found...is CARIS HIPS and SIPS installed?".
Proof.
  apply (proj1 (family_wrappers_raise_only_their_errors bare
                  (Exception
                     "No Batch Engine found...is CARIS HIPS and SIPS installed?"))
           false).
  vm_compute. reflexivity.
Defined.

Lemma connection_failure_reaches_every_caller_witness :
  get_hips_command_from_version unreachable (PStr "11.4") =
    Raise (WindowsError 5) /\
  get_all_hips_versions unreachable = Raise (WindowsError 5) /\
  command_finder_base unreachable false = Raise (WindowsError 5).
Proof.
  destruct (connection_failure_reaches_every_caller unreachable 5 eq_refl)
    as [Hv [Hall [_ Hbase]]].
  split; [apply Hv | split; [apply Hall | apply Hbase]].
Defined.

Lemma get_all_hips_versions_nonempty_witness :
  command_finder_hips partial true =
    Ok (PList [PList [PStr (hips_exe "11.4"); PFloat (Prim2SF 11.4%float)]])
  /\
  exists m ms,
    PList [PList [PStr (hips_exe "11.4"); PFloat (Prim2SF 11.4%float)]] =
      PList (m :: ms) /\
    Forall (checked_match partial) (m :: ms) /\
    (List.length (m :: ms) <= 8)%nat.
Proof.
  apply (get_all_hips_versions_nonempty partial).
  vm_compute. reflexivity.
Defined.


Lemma family_modes_agree_witness :
  exists ms,
    command_finder_hips (with_hips ["10.2"; "11.4"]) true =
      Ok (PList (PList [PStr (hips_exe "11.4"); PFloat (Prim2SF 11.4%float)]
                 :: ms)).
Proof.
  apply (proj1 (proj1 (family_modes_agree (with_hips ["10.2"; "11.4"])
                         (PList [PStr (hips_exe "11.4");
                                 PFloat (Prim2SF 11.4%float)])))).
  vm_compute. reflexivity.
Defined.

Lemma exact_version_found_witness :
  get_hips_command_from_version partial (PStr "11.4") =
    Ok (PStr (hips_exe "11.4")).
Proof.
  apply (exact_version_found partial HKLM (PStr "11.4") (hips_exe "11.4"));
    reflexivity.
Defined.

Lemma exact_version_outcomes_witness :
  exists path,
    PStr (hips_exe "11.4") = PStr path /\ path <> "" /\
    os_path_exists partial path = true.
Proof.
  apply (proj1 (exact_version_outcomes partial (PStr "11.4"))).
  vm_compute. reflexivity.
Defined.

Lemma collect_all_keeps_repetitions_witness :
  caris_command_finder partial "carisbatch.exe"
    (["12.0"; "11.4"] ++ ["12.0"; "11.4"]) "HIPS" true "bin" =
    Ok (PList
          ([PList [PStr (hips_exe "11.4"); PFloat (Prim2SF 11.4%float)]] ++
           [PList [PStr (hips_exe "11.4"); PFloat (Prim2SF 11.4%float)]])).
Proof.
  apply (collect_all_keeps_repetitions partial "carisbatch.exe" "HIPS" "bin"
           ["12.0"; "11.4"]).
  vm_compute. reflexivity.
Defined.

Lemma exact_version_hit_is_listed_witness :
  exists ms vers,
    get_all_hips_versions (with_hips ["10.2"; "11.4"]) = Ok (PList ms) /\
    float "10.2" = Ok vers /\
    In (PList [PStr (hips_exe "10.2"); PFloat vers]) ms.
Proof.
  apply (exact_version_hit_is_listed (with_hips ["10.2"; "11.4"]) "10.2"
           (hips_exe "10.2")).
  - vm_compute. tauto.
  - vm_compute. reflexivity.
Defined.

End MoreInstances.
